(** * A shallow embedding of [model.py] (conditional adversarial autoencoder
    trainer) and the properties of its data preparation, label parsing,
    graph construction, training loop and conditional sweep.

    Conventions of the embedding.
    - Python exceptions are values of [exn]; a computation that may raise
      returns a [result].
    - Python 3 semantics: [/] is true division.  A Python float is modelled by
      the rational it denotes, kept in lowest terms ([Qred]); every float the
      development computes with is a decimal with at most three places or a
      multiple of 1/4.
    - File names are strings of 8-bit characters.
    - [np.random] is modelled by an explicit stream of raw draws carried in
      the state; every outcome numpy can produce is produced by some stream.
    - TensorFlow graph nodes and tensor values are symbolic terms ([node]);
      the numeric engine is left uninterpreted. *)

From Stdlib Require Import Ascii QArith Qround.
From stdpp Require Import base option list strings gmap fin_maps.

Local Open Scope Z_scope.
#[local] Set Warnings "-register-all".

(** ** Python values, exceptions *)
Module Py.

Inductive exn : Type :=
| IndexError
| ValueError (msg : string)
| AttributeError (attr : string)
| ZeroDivisionError
| FileNotFoundError (path : string).

Inductive result (A : Type) : Type :=
| Returns (a : A)
| Raises (e : exn).
Arguments Returns {A} a.
Arguments Raises {A} e.

Definition result_bind {A B} (f : A → result B) (r : result A) : result B :=
  match r with
  | Returns a => f a
  | Raises e => Raises e
  end.

#[global] Instance exn_eq_dec : EqDecision exn.
Proof. solve_decision. Defined.
#[global] Instance result_eq_dec `{EqDecision A} : EqDecision (result A).
Proof. solve_decision. Defined.

#[global] Instance result_ret : MRet result := @Returns.
#[global] Instance result_mbind : MBind result := @result_bind.

(** [l[i]] for a non-negative index. *)
Definition index {A} (l : list A) (i : nat) : result A :=
  match l !! i with
  | Some a => Returns a
  | None => Raises IndexError
  end.

(** [s.split(sep)] for a one-character separator: never empty, one more
    piece than there are separators. *)
Fixpoint split (sep : ascii) (s : string) : list string :=
  match s with
  | EmptyString => [EmptyString]
  | String c r =>
      if Ascii.eqb c sep then EmptyString :: split sep r
      else match split sep r with
           | h :: t => String c h :: t
           | [] => [String c EmptyString]
           end
  end.

Fixpoint take_chars (n : nat) (s : string) : string :=
  match n, s with
  | S n', String c r => String c (take_chars n' r)
  | _, _ => EmptyString
  end.

(** [s[:-k]] for [k > 0]: all but the last [k] characters. *)
Definition slice_until_neg (k : nat) (s : string) : string :=
  take_chars (String.length s - k)%nat s.

(** Characters [int()] and [str.strip] treat as white space (ASCII). *)
Definition is_space (c : ascii) : bool :=
  let n := nat_of_ascii c in
  ((9 <=? n)%nat && (n <=? 13)%nat) || ((28 <=? n)%nat && (n <=? 32)%nat).

Definition digit_of (c : ascii) : option Z :=
  let n := Z.of_nat (nat_of_ascii c) in
  if (48 <=? n) && (n <=? 57) then Some (n - 48) else None.

Fixpoint all_space (s : string) : bool :=
  match s with
  | EmptyString => true
  | String c r => is_space c && all_space r
  end.

Fixpoint lstrip (s : string) : string :=
  match s with
  | EmptyString => EmptyString
  | String c r => if is_space c then lstrip r else s
  end.

(** The digits of an [int()] literal in base 10: a digit first, single
    underscores only between digits, then optional trailing white space. *)
Fixpoint int_digits (acc : Z) (s : string) : option Z :=
  match s with
  | EmptyString => None
  | String c r =>
      match digit_of c with
      | None => None
      | Some d =>
          let acc' := 10 * acc + d in
          match r with
          | EmptyString => Some acc'
          | String c' r' =>
              if Ascii.eqb c' "_" then int_digits acc' r'
              else if is_space c' then
                     if all_space r' then Some acc' else None
                   else int_digits acc' r
          end
      end
  end.

Definition int_signed (s : string) : option Z :=
  match s with
  | String "-" r => Z.opp <$> int_digits 0 r
  | String "+" r => int_digits 0 r
  | _ => int_digits 0 s
  end.

(** [int(s)]. *)
Definition int (s : string) : result Z :=
  match int_signed (lstrip s) with
  | Some z => Returns z
  | None => Raises (ValueError "invalid literal for int() with base 10")
  end.

Definition digit_char (d : Z) : ascii := ascii_of_nat (Z.to_nat (48 + d)).

Fixpoint str_digits (fuel : nat) (n : Z) (tail : string) : string :=
  match fuel with
  | O => tail
  | S f =>
      let tail' := String (digit_char (n mod 10)) tail in
      if n <? 10 then tail' else str_digits f (n / 10) tail'
  end.

(** [str(z)] for an integer: decimal digits, a leading [-] when negative. *)
Definition str (z : Z) : string :=
  let digits n := str_digits (S (Z.to_nat (Z.log2 n))) n EmptyString in
  if z <? 0 then String "-" (digits (- z)) else digits z.

(** [n / d] on integers, as the float it yields. *)
Definition truediv (n d : Z) : result Q :=
  if d =? 0 then Raises ZeroDivisionError
  else Returns (Qred (inject_Z n / inject_Z d)).

End Py.

(** ** TensorFlow graph terms *)
Module TF.

(** A node of the dataflow graph, and also the symbolic value a tensor has
    once a session evaluated it. *)
Inductive node : Type :=
| Placeholder (name : string) (rows : nat)
| Var (name : string)
| Const (c : string)
| Num (q : Q)
| Batch (rows : list node)
| Op (op : string) (args : list node)
| Minimize (learning_rate loss : node) (var_list : list node)
    (global_step : option node).

(** A variable of the default graph. *)
Record variable : Type := Variable_ {
  v_name : string;
  v_trainable : bool;
  v_initial : node
}.

(** What an attribute of the [Model] instance can hold. *)
Inductive pyval : Type :=
| VNode (n : node)
| VNodes (l : list node)
| VFiles (l : list string)
| VObj (cls : string).

(** What the run leaves outside the process. *)
Inductive output : Type :=
| Image (path : string) (content : node)
| Summary (logdir : string) (step value : node)
| Checkpoint (path : string) (snapshot : gmap string node).

End TF.

(** ** The state a run threads through: the instance's attributes, the
    default graph, the session, numpy's generator and the file system. *)
Module Sys.
Import Py TF.

Record world : Type := World {
  attrs : gmap string pyval;          (* self.__dict__ *)
  graph_vars : list variable;         (* the graph's variables, creation order *)
  session_vars : gmap string node;    (* variable values held by the session *)
  rng : nat → nat;                    (* raw draws of np.random, next first *)
  strict_choice : bool;               (* numpy before 1.16: an empty population
                                         is refused even for zero samples *)
  dirs : gmap string (list string);   (* directories and their entries *)
  outputs : list output               (* files written, oldest first *)
}.

Definition M (A : Type) : Type := world → result A * world.

Definition M_ret {A} (a : A) : M A := λ w, (Returns a, w).
Definition M_bind {A B} (f : A → M B) (m : M A) : M B :=
  λ w, match m w with
       | (Returns a, w') => f a w'
       | (Raises e, w') => (Raises e, w')
       end.
#[global] Instance M_mret : MRet M := @M_ret.
#[global] Instance M_mbind : MBind M := @M_bind.

Definition raise {A} (e : exn) : M A := λ w, (Raises e, w).
Definition lift {A} (r : result A) : M A := λ w, (r, w).

(** [for x in l: body(x)] *)
Fixpoint for_each {A} (l : list A) (body : A → M unit) : M unit :=
  match l with
  | [] => mret tt
  | x :: r => body x ;; for_each r body
  end.

(** [[f(x) for x in l]] *)
Fixpoint list_comp {A B} (f : A → M B) (l : list A) : M (list B) :=
  match l with
  | [] => mret []
  | x :: r => y ← f x; ys ← list_comp f r; mret (y :: ys)
  end.

(** [[x for x in l if p(x)]] *)
Fixpoint list_comp_if {A} (p : A → M bool) (l : list A) : M (list A) :=
  match l with
  | [] => mret []
  | x :: r => b ← p x; ys ← list_comp_if p r;
              mret (if b : bool then x :: ys else ys)
  end.

(** A loop that carries a local variable. *)
Fixpoint fold_each {S A} (body : S → A → M S) (s : S) (l : list A) : M S :=
  match l with
  | [] => mret s
  | x :: r => s' ← body s x; fold_each body s' r
  end.

(** [self.name] *)
Definition getattr (name : string) : M pyval :=
  λ w, match attrs w !! name with
       | Some v => (Returns v, w)
       | None => (Raises (AttributeError name), w)
       end.

(** [self.name = v] *)
Definition setattr (name : string) (v : pyval) : M unit :=
  λ w, (Returns tt,
        World (<[name := v]> (attrs w)) (graph_vars w) (session_vars w)
              (rng w) (strict_choice w) (dirs w) (outputs w)).

Definition type_error {A} : M A :=
  raise (ValueError "operand of an unexpected type").

Definition get_node (name : string) : M node :=
  v ← getattr name;
  match v with VNode n => mret n | _ => type_error end.

Definition get_nodes (name : string) : M (list node) :=
  v ← getattr name;
  match v with VNodes l => mret l | _ => type_error end.

Definition get_files (name : string) : M (list string) :=
  v ← getattr name;
  match v with VFiles l => mret l | _ => type_error end.

(** The next raw draw of the generator. *)
Definition draw : M nat :=
  λ w, (Returns (rng w 0%nat),
        World (attrs w) (graph_vars w) (session_vars w)
              (λ k, rng w (S k)) (strict_choice w) (dirs w) (outputs w)).

Definition read_world : M world := λ w, (Returns w, w).

(** [os.listdir(path)] *)
Definition listdir (path : string) : M (list string) :=
  λ w, match dirs w !! path with
       | Some l => (Returns l, w)
       | None => (Raises (FileNotFoundError path), w)
       end.

(** [if not os.path.exists(d): os.makedirs(d)] *)
Definition ensure_dir (d : string) : M unit :=
  λ w, match dirs w !! d with
       | Some _ => (Returns tt, w)
       | None => (Returns tt,
                  World (attrs w) (graph_vars w) (session_vars w) (rng w)
                        (strict_choice w) (<[d := []]> (dirs w)) (outputs w))
       end.

Definition emit (o : output) : M unit :=
  λ w, (Returns tt,
        World (attrs w) (graph_vars w) (session_vars w) (rng w)
              (strict_choice w) (dirs w) (outputs w ++ [o])).

Definition set_session_vars (σ : gmap string node) : M unit :=
  λ w, (Returns tt,
        World (attrs w) (graph_vars w) σ (rng w) (strict_choice w)
              (dirs w) (outputs w)).

Definition set_graph_vars (l : list variable) : M unit :=
  λ w, (Returns tt,
        World (attrs w) l (session_vars w) (rng w) (strict_choice w)
              (dirs w) (outputs w)).

(** [os.path.join(a, b)] on POSIX. *)
Definition path_join (a b : string) : string :=
  match b with
  | String "/" _ => b
  | _ => if String.eqb a "" then b
         else if String.eqb (String.substring (String.length a - 1) 1 a) "/"
              then a +:+ b
              else a +:+ "/" +:+ b
  end.

End Sys.

(** ** The parts of numpy the program calls *)
Module NumPy.
Import Py TF Sys.

(** [np.arange(start, stop, step)] for a non-zero step: the values
    [start + i * step] for [i] below [ceil((stop - start) / step)]. *)
Definition arange (start stop step : Q) : list Q :=
  let n := Z.to_nat (Qceiling ((stop - start) / step)) in
  (λ i : nat, Qred (start + inject_Z (Z.of_nat i) * step)) <$> seq 0 n.

(** [np.repeat(a, k)] on a vector: every element [k] times in a row. *)
Definition repeat_each {A} (a : list A) (k : nat) : list A :=
  a ≫= replicate k.

(** [np.repeat([a], k, axis=0)], flattened row by row. *)
Definition repeat_rows {A} (a : list A) (k : nat) : list A :=
  concat (replicate k a).

(** [a.reshape((n, 1))] *)
Definition reshape_column (n : nat) (a : list Q) : M (list node) :=
  if (length a =? n)%nat then mret ((λ q, Batch [Num q]) <$> a)
  else raise (ValueError "cannot reshape array").

(** [np.random.choice(range(n), d)]: [d] indices below [n], with
    replacement. *)
Definition random_choice (n d : nat) : M (list nat) :=
  w ← read_world;
  if (n =? 0)%nat && (strict_choice w || negb (d =? 0)%nat)
  then raise (ValueError "a must be non-empty")
  else list_comp (λ _, r ← draw; mret (r `mod` n)%nat) (seq 0 d).

Fixpoint shuffle_aux {A} (fuel : nat) (l : list A) : M (list A) :=
  match fuel with
  | O => mret l
  | S f =>
      r ← draw;
      let j := (r `mod` length l)%nat in
      match l !! j with
      | Some x => rest ← shuffle_aux f (delete j l); mret (x :: rest)
      | None => mret l
      end
  end.

(** [np.random.shuffle(l)]: [l] is left in the order the generator draws. *)
Definition random_shuffle {A} (l : list A) : M (list A) :=
  shuffle_aux (length l) l.

End NumPy.

(** ** Sessions: evaluating fetches against the variables *)
Module Session.
Import Py TF Sys.

(** The value of a node under the variable values [σ] and the fed
    placeholders [φ]; [None] when it reads a placeholder that was not fed or
    a variable that was never initialised. *)
Fixpoint instantiate (σ φ : gmap string node) (n : node) : option node :=
  let all :=
    fix all (l : list node) : option (list node) :=
      match l with
      | [] => Some []
      | x :: r => x' ← instantiate σ φ x; r' ← all r; Some (x' :: r')
      end in
  match n with
  | Placeholder name _ => φ !! name
  | Var name => σ !! name
  | Const _ | Num _ => Some n
  | Batch rows => Batch <$> all rows
  | Op f args => Op f <$> all args
  | Minimize _ _ _ _ => Some (Const "None")
  end.

(** A fed value must have the placeholder's static shape: here, its number
    of rows. *)
Fixpoint feed_dict (feed : list (node * node)) : result (gmap string node) :=
  match feed with
  | [] => Returns ∅
  | (Placeholder name rows, Batch l) :: rest =>
      if (length l =? rows)%nat
      then φ ← feed_dict rest; Returns (<[name := Batch l]> φ)
      else Raises (ValueError "Cannot feed value of this shape")
  | _ :: _ => Raises (ValueError "Cannot interpret feed_dict key or value")
  end.

(** The variable writes of one fetch: only an optimizer's training op writes,
    to the variables of its [var_list] and to its [global_step]. *)
Definition updates (σ φ : gmap string node) (fetch : node)
  : option (list (string * node)) :=
  match fetch with
  | Minimize opt loss var_list global_step =>
      o ← instantiate σ φ opt;
      l ← instantiate σ φ loss;
      let train v :=
        match v with
        | Var name => old ← σ !! name; Some (name, Op "adam" [o; old; l])
        | _ => None
        end in
      ws ← mapM train var_list;
      match global_step with
      | None => Some ws
      | Some (Var s) =>
          k ← σ !! s;
          Some (ws ++ [(s, match k with
                           | Num q => Num (Qred (q + 1))
                           | _ => Op "add" [k; Num 1]
                           end)])
      | Some _ => None
      end
  | _ => Some []
  end.

Definition apply_updates (ups : list (string * node)) (σ : gmap string node)
  : gmap string node :=
  foldl (λ acc kv, <[kv.1 := kv.2]> acc) σ ups.

Definition engine_error {A} : M A :=
  raise (ValueError "placeholder not fed or variable not initialised").

(** [session.run(fetches, feed_dict)]: one joint evaluation. Every fetch is
    computed from the variable values the call started with; the writes are
    committed together. *)
Definition run (fetches : list node) (feed : list (node * node))
  : M (list node) :=
  φ ← lift (feed_dict feed);
  w ← read_world;
  let σ := session_vars w in
  match mapM (instantiate σ φ) fetches, mapM (updates σ φ) fetches with
  | Some values, Some ups =>
      set_session_vars (apply_updates (concat ups) σ) ;; mret values
  | _, _ => engine_error
  end.

(** [tf.global_variables_initializer().run()] *)
Definition initialize_variables : M unit :=
  w ← read_world;
  set_session_vars
    (list_to_map ((λ v, (v_name v, v_initial v)) <$> graph_vars w)).

End Session.

(** ** model.py *)
Module CAAE.
Import Py TF Sys.

(** The constants [model.py] takes from [config]. *)
Record config : Type := Config {
  size_image : nat;
  size_batch : nat;
  num_z_channels : nat;
  image_value_range : Q * Q;
  enable_shuffle : bool;
  training_data_path : string;
  validation_data_path : string;
  vgg_face_path : string;
  save_dir : string
}.

(** The names of the variables each sub-network builder asks the variable
    scope for. *)
Record subnetworks : Type := Subnetworks {
  E_names : list string;
  G_names : list string;
  D_z_names : list string;
  D_img_names : list string
}.

(** [sub in s] on strings. *)
Fixpoint is_infix (sub s : string) : bool :=
  String.prefix sub s ||
  match s with
  | EmptyString => false
  | String _ r => is_infix sub r
  end.

(** ['{:02d}'.format(n)] *)
Definition format02 (n : nat) : string :=
  if (n <? 10)%nat then "0" +:+ str (Z.of_nat n) else str (Z.of_nat n).

Definition Qltb (x y : Q) : bool := negb (Qle_bool y x).

(** Graph operators. *)
Definition t_add (a b : node) : node := Op "add" [a; b].
Definition t_sub (a b : node) : node := Op "sub" [a; b].
Definition t_mul (a b : node) : node := Op "mul" [a; b].
Definition t_div (a b : node) : node := Op "div" [a; b].
Definition t_abs (a : node) : node := Op "abs" [a].
Definition reduce_mean (a : node) : node := Op "reduce_mean" [a].
Definition ones_like (a : node) : node := Op "ones_like" [a].
Definition zeros_like (a : node) : node := Op "zeros_like" [a].
Definition first16 (a : node) : node := Op "[:16]" [a].
Definition sigmoid_cross_entropy_with_logits (logits labels : node) : node :=
  Op "sigmoid_cross_entropy_with_logits" [logits; labels].
Definition summary_histogram (tag : string) (a : node) : node :=
  Op "summary.histogram" [Const tag; a].
Definition summary_scalar (tag : string) (a : node) : node :=
  Op "summary.scalar" [Const tag; a].

(** Modelled from the spec: [image_ops.load_image] is not among the sources.
    The spec has it as an external collaborator, "path → normalized
    fixed-size tensor". *)
Definition load_image (image_path : string) (image_size : nat) : node :=
  Op "load_image" [Const image_path; Num (inject_Z (Z.of_nat image_size))].

(** [file_name.split('s')[1]] read as an integer: the stratum. *)
Definition stratum_field (x : string) : result Z :=
  f ← index (split "s" x) 1; int f.

(** [int(x.split('s')[2]) / 1000] *)
Definition valence_label (x : string) : result Q :=
  f ← index (split "s" x) 2; v ← int f; truediv v 1000.

(** [int(x.split('s')[3][:-4]) / 1000] *)
Definition arousal_label (x : string) : result Q :=
  f ← index (split "s" x) 3; v ← int (slice_until_neg 4 f); truediv v 1000.

(** [not int(x.split('s')[2])/1000 < -1] *)
Definition keeps (x : string) : result bool :=
  q ← valence_label x; Returns (negb (Qltb q (-1))).

(** [[prefix + x for x in os.listdir(prefix) if not ... < -1]] *)
Definition list_files (prefix : string) : M (list string) :=
  listing ← listdir prefix;
  kept ← list_comp_if (λ x, lift (keeps x)) listing;
  mret ((λ x, prefix +:+ x) <$> kept).

(** Line 478: the files of each of the 8 strata. *)
Definition sort_samples (X : list string) : M (list (list string)) :=
  list_comp (λ r : nat,
    list_comp_if (λ x, s ← lift (stratum_field x);
                       mret (s =? Z.of_nat r)) X) (seq 0 8).

(** Lines 484-486, the body of the loop over [enumerate(differences)]:
    stratum [i] is extended by [d] of its own files, drawn at random. *)
Definition add_samples (sorted_samples : list (list string)) (id : nat * nat)
  : M (list (list string)) :=
  let '(i, d) := id in
  samples ← lift (index sorted_samples i);
  picks ← NumPy.random_choice (length samples) d;
  added ← list_comp (λ x, lift (index samples x)) picks;
  current ← lift (index sorted_samples i);
  mret (<[i := current ++ added]> sorted_samples).

(** [Model.fill_up_equally], lines 477-493. *)
Definition fill_up_equally (X : list string) : M (list string) :=
  sorted_samples ← sort_samples X;
  let amounts := length <$> sorted_samples in
  let differences := (λ a, max_list amounts - a)%nat <$> amounts in
  sorted_samples ← fold_each add_samples sorted_samples (imap pair differences);
  let sorted_samples_flat := concat sorted_samples in
  (* [np.random.seed = 14031993] rebinds a name and seeds nothing *)
  NumPy.random_shuffle sorted_samples_flat.

Section Model.
Context (cfg : config) (net : subnetworks).

(** [tf.get_variable] under a variable scope whose reuse flag is [reuse]. *)
Definition get_variable (reuse : bool) (name : string) : M node :=
  w ← read_world;
  if bool_decide (name ∈ v_name <$> graph_vars w) then
    if reuse then mret (Var name)
    else raise (ValueError "Variable already exists")
  else
    if reuse then raise (ValueError "Variable does not exist")
    else set_graph_vars (graph_vars w ++
           [Variable_ name true (Op "initial_value" [Const name])]) ;;
         mret (Var name).

(** [tf.Variable(0, trainable=False, name=...)]: always a new variable, its
    name made unique in the graph. *)
Definition new_variable (name : string) (initial : node) : M node :=
  w ← read_world;
  let names := v_name <$> graph_vars w in
  let candidates :=
    name :: ((λ k, name +:+ "_" +:+ str (Z.of_nat k)) <$> seq 1 (length names)) in
  match filter (λ c, c ∉ names) candidates with
  | fresh :: _ =>
      set_graph_vars (graph_vars w ++ [Variable_ fresh false initial]) ;;
      mret (Var fresh)
  | [] => type_error
  end.

(** Modelled from the spec: [subnetworks.encoder] is not among the sources.
    The spec: "Encoder: image → latent code", one of the "four disjoint,
    named sets of trainable weights ... identified by naming convention". *)
Definition encoder (image : node) : M node :=
  ws ← list_comp (get_variable false) (E_names net);
  mret (Op "encoder" (image :: ws)).

(** Modelled from the spec: [subnetworks.generator] is not among the
    sources. The spec: "Generator: (latent code, valence, arousal) → image". *)
Definition generator (z valence arousal : node) : M node :=
  ws ← list_comp (get_variable false) (G_names net);
  mret (Op "generator" (z :: valence :: arousal :: ws)).

(** Modelled from the spec: [subnetworks.discriminator_z] is not among the
    sources. The spec: "Latent Discriminator: latent code → real/fake score,
    shared weights across latent-from-encoder and latent-from-prior calls",
    through an "implicit reuse-by-flag second invocation of a sub-network
    call". Returns the score and its logits. *)
Definition discriminator_z (z : node) (reuse_variables : bool)
  : M (node * node) :=
  ws ← list_comp (get_variable reuse_variables) (D_z_names net);
  let logits := Op "discriminator_z" (z :: ws) in
  mret (Op "sigmoid" [logits], logits).

(** Modelled from the spec: [subnetworks.discriminator_img] is not among the
    sources. The spec: "Image Discriminator: (image, valence, arousal) →
    real/fake score, shared weights across real-image and generated-image
    calls". Returns the score and its logits. *)
Definition discriminator_img (image valence arousal : node)
    (reuse_variables : bool) : M (node * node) :=
  ws ← list_comp (get_variable reuse_variables) (D_img_names net);
  let logits := Op "discriminator_img" (image :: valence :: arousal :: ws) in
  mret (Op "sigmoid" [logits], logits).

(** Modelled from the spec: [vgg_face.face_embedding] is not among the
    sources. The spec: "image tensor → ordered sequence of 5 intermediate
    feature maps, fixed weights, no gradient update". *)
Definition face_embedding (weights : pyval) (image : node)
  : node * node * node * node * node :=
  (Op "conv1_2" [image], Op "conv2_2" [image], Op "conv3_2" [image],
   Op "conv4_2" [image], Op "conv5_2" [image]).

(** The loss of one feature level, lines 99-103. *)
Definition level_loss (real fake : node) (side : Z) : node :=
  t_div (t_div (reduce_mean (t_abs (t_sub real fake))) (Num (inject_Z side)))
        (Num (inject_Z side)).

Definition bce_mean (logits : node) (labels : node → node) : node :=
  reduce_mean (sigmoid_cross_entropy_with_logits logits (labels logits)).

(** [Model.__init__], lines 25-163. *)
Definition init : M unit :=
  setattr "session" (VObj "session") ;;
  setattr "vgg_weights" (VObj (vgg_face_path cfg)) ;;
  (* input placeholders *)
  setattr "input_image" (VNode (Placeholder "input_images" (size_batch cfg))) ;;
  setattr "valence" (VNode (Placeholder "valence_labels" (size_batch cfg))) ;;
  setattr "arousal" (VNode (Placeholder "arousal_labels" (size_batch cfg))) ;;
  setattr "z_prior" (VNode (Placeholder "z_prior" (size_batch cfg))) ;;
  (* networks *)
  input_image ← get_node "input_image";
  z ← encoder input_image;
  setattr "z" (VNode z) ;;
  z ← get_node "z";
  valence ← get_node "valence";
  arousal ← get_node "arousal";
  G ← generator z valence arousal;
  setattr "G" (VNode G) ;;
  z ← get_node "z";
  '(D_z, D_z_logits) ← discriminator_z z false;
  setattr "D_z" (VNode D_z) ;;
  setattr "D_z_logits" (VNode D_z_logits) ;;
  G ← get_node "G";
  valence ← get_node "valence";
  arousal ← get_node "arousal";
  '(D_G, D_G_logits) ← discriminator_img G valence arousal false;
  setattr "D_G" (VNode D_G) ;;
  setattr "D_G_logits" (VNode D_G_logits) ;;
  z_prior ← get_node "z_prior";
  '(D_z_prior, D_z_prior_logits) ← discriminator_z z_prior true;
  setattr "D_z_prior" (VNode D_z_prior) ;;
  setattr "D_z_prior_logits" (VNode D_z_prior_logits) ;;
  input_image ← get_node "input_image";
  valence ← get_node "valence";
  arousal ← get_node "arousal";
  '(D_input, D_input_logits) ← discriminator_img input_image valence arousal true;
  setattr "D_input" (VNode D_input) ;;
  setattr "D_input_logits" (VNode D_input_logits) ;;
  (* VGG loss *)
  vgg_weights ← getattr "vgg_weights";
  input_image ← get_node "input_image";
  let '(real1, real2, real3, real4, real5) :=
    face_embedding vgg_weights (first16 input_image) in
  vgg_weights ← getattr "vgg_weights";
  G ← get_node "G";
  let '(fake1, fake2, fake3, fake4, fake5) :=
    face_embedding vgg_weights (first16 G) in
  let conv1_2_loss := level_loss real1 fake1 224 in
  let conv2_2_loss := level_loss real2 fake2 112 in
  let conv3_2_loss := level_loss real3 fake3 56 in
  let conv4_2_loss := level_loss real4 fake4 28 in
  let conv5_2_loss := level_loss real5 fake5 14 in
  setattr "vgg_loss" (VNode
    (t_add (t_add (t_add (t_add conv1_2_loss conv2_2_loss) conv3_2_loss)
                  conv4_2_loss) conv5_2_loss)) ;;
  (* reconstruction loss *)
  input_image ← get_node "input_image";
  G ← get_node "G";
  setattr "EG_loss" (VNode (reduce_mean (t_abs (t_sub input_image G)))) ;;
  (* losses of the discriminator on z *)
  l ← get_node "D_z_prior_logits";
  setattr "D_z_loss_prior" (VNode (bce_mean l ones_like)) ;;
  l ← get_node "D_z_logits";
  setattr "D_z_loss_z" (VNode (bce_mean l zeros_like)) ;;
  l ← get_node "D_z_logits";
  setattr "E_z_loss" (VNode (bce_mean l ones_like)) ;;
  (* losses of the discriminator on images *)
  l ← get_node "D_input_logits";
  setattr "D_img_loss_input" (VNode (bce_mean l ones_like)) ;;
  l ← get_node "D_G_logits";
  setattr "D_img_loss_G" (VNode (bce_mean l zeros_like)) ;;
  l ← get_node "D_G_logits";
  setattr "G_img_loss" (VNode (bce_mean l ones_like)) ;;
  (* trainable variables *)
  w ← read_world;
  let trainable_variables := filter (λ v, v_trainable v = true) (graph_vars w) in
  let named (marker : string) :=
    (λ v, Var (v_name v)) <$>
      filter (λ v, is_infix marker (v_name v) = true) trainable_variables in
  setattr "E_variables" (VNodes (named "E_")) ;;
  setattr "G_variables" (VNodes (named "G_")) ;;
  setattr "D_z_variables" (VNodes (named "D_z_")) ;;
  setattr "D_img_variables" (VNodes (named "D_img_")) ;;
  (* summary *)
  n ← get_node "z"; setattr "z_summary" (VNode (summary_histogram "z" n)) ;;
  n ← get_node "z_prior";
  setattr "z_prior_summary" (VNode (summary_histogram "z_prior" n)) ;;
  n ← get_node "EG_loss";
  setattr "EG_loss_summary" (VNode (summary_scalar "EG_loss" n)) ;;
  n ← get_node "D_z_loss_z";
  setattr "D_z_loss_z_summary" (VNode (summary_scalar "D_z_loss_z" n)) ;;
  n ← get_node "D_z_loss_prior";
  setattr "D_z_loss_prior_summary" (VNode (summary_scalar "D_z_loss_prior" n)) ;;
  n ← get_node "E_z_loss";
  setattr "E_z_loss_summary" (VNode (summary_scalar "E_z_loss" n)) ;;
  n ← get_node "D_z_logits";
  setattr "D_z_logits_summary" (VNode (summary_histogram "D_z_logits" n)) ;;
  n ← get_node "D_z_prior_logits";
  setattr "D_z_prior_logits_summary"
    (VNode (summary_histogram "D_z_prior_logits" n)) ;;
  n ← get_node "D_img_loss_input";
  setattr "D_img_loss_input_summary"
    (VNode (summary_scalar "D_img_loss_input" n)) ;;
  n ← get_node "D_img_loss_G";
  setattr "D_img_loss_G_summary" (VNode (summary_scalar "D_img_loss_G" n)) ;;
  n ← get_node "G_img_loss";
  setattr "G_img_loss_summary" (VNode (summary_scalar "G_img_loss" n)) ;;
  n ← get_node "D_G_logits";
  setattr "D_G_logits_summary" (VNode (summary_histogram "D_G_logits" n)) ;;
  n ← get_node "D_input_logits";
  setattr "D_input_logits_summary"
    (VNode (summary_histogram "D_input_logits" n)) ;;
  n ← get_node "vgg_loss";
  setattr "vgg_loss_summary" (VNode (summary_scalar "VGG_loss" n)) ;;
  setattr "saver" (VObj "tf.train.Saver(max_to_keep=10)").

(** [self.session.run([self.z, self.G], feed_dict={input, valence, arousal})],
    as [sample] and [test] call it. *)
Definition run_z_G (images valence arousal : node) : M (node * node) :=
  getattr "session" ;;
  z ← get_node "z";
  G ← get_node "G";
  k_image ← get_node "input_image";
  k_valence ← get_node "valence";
  k_arousal ← get_node "arousal";
  values ← Session.run [z; G]
    [(k_image, images); (k_valence, valence); (k_arousal, arousal)];
  match values with
  | [z; G] => mret (z, G)
  | _ => type_error
  end.

(** The 49 valence labels of [Model.test], lines 449-450. *)
Definition test_valence : list Q :=
  let valence := NumPy.arange (3 # 4) (-751 # 1000) (-1 # 4) in
  NumPy.repeat_each valence 7.

(** The 49 arousal labels of [Model.test], lines 453-455. *)
Definition test_arousal : list Q :=
  let arousal := NumPy.arange (3 # 4) (-751 # 1000) (-1 # 4) in
  NumPy.repeat_rows arousal 7.

(** [Model.test], lines 445-474. *)
Definition test (images : node) (test_dir name : string) : M unit :=
  images ← match images with
           | Batch rows => mret (Batch (take 1 rows))
           | _ => type_error
           end;
  valence ← NumPy.reshape_column 49 test_valence;
  arousal ← NumPy.reshape_column 49 test_arousal;
  query_images ← match images with
                 | Batch rows => mret (Batch (concat (replicate 49 rows)))
                 | _ => type_error
                 end;
  '(z, G) ← run_z_G query_images (Batch valence) (Batch arousal);
  emit (Image (path_join test_dir name)
          (Op "save_output" [images; G; Const "size_frame=[7, 10]"])).

(** [Model.validate], lines 430-443. *)
Definition validate (name : string) : M unit :=
  let val_dir := path_join (save_dir cfg) "validation" in
  ensure_dir val_dir ;;
  let name_dir := path_join val_dir name in
  ensure_dir name_dir ;;
  validation_files ← get_files "validation_files";
  for_each validation_files (λ image_path,
    part ← lift (index (split "/" image_path) 3);
    token ← lift (index (split "s" part) 0);
    let n := token +:+ ".png" in
    test (Batch [load_image image_path 96]) name_dir n).

(** [Model.sample], lines 403-428. *)
Definition sample (images valence arousal : node) (name : string) : M unit :=
  let sample_dir := path_join (save_dir cfg) "samples" in
  ensure_dir sample_dir ;;
  '(z, G) ← run_z_G images valence arousal;
  let size_frame := Num (inject_Z (Z.sqrt (Z.of_nat (size_batch cfg)))) in
  emit (Image (path_join sample_dir name)
          (Op "save_batch_images" [G; size_frame])) ;;
  emit (Image (path_join sample_dir "input.png")
          (Op "save_batch_images" [images; size_frame])).

(** [Model.save_checkpoint], lines 383-390. *)
Definition save_checkpoint (name : string) : M unit :=
  let checkpoint_dir := path_join (save_dir cfg) "checkpoint" in
  ensure_dir checkpoint_dir ;;
  getattr "saver" ;;
  getattr "session" ;;
  w ← read_world;
  emit (Checkpoint (path_join checkpoint_dir name) (session_vars w)).

(** The snapshot [tf.train.get_checkpoint_state] points at: the last one
    written under [checkpoint_dir]. *)
Definition latest_checkpoint (checkpoint_dir : string) (outs : list output)
  : option (gmap string node) :=
  last (omap (λ o, match o with
                   | Checkpoint p snapshot =>
                       if String.prefix checkpoint_dir p then Some snapshot
                       else None
                   | _ => None
                   end) outs).

(** [Model.load_checkpoint], lines 392-401. *)
Definition load_checkpoint : M bool :=
  let checkpoint_dir := path_join (save_dir cfg) "checkpoint" in
  w ← read_world;
  match latest_checkpoint checkpoint_dir (outputs w) with
  | Some snapshot =>
      getattr "saver" ;;
      getattr "session" ;;
      set_session_vars (snapshot ∪ session_vars w) ;;
      mret true
  | None => mret false
  end.

(** [train], lines 179-189: the training and validation file lists. *)
Definition load_file_names : M (list string * nat) :=
  let path := training_data_path cfg in
  file_names ← list_files path;
  file_names ← fill_up_equally file_names;
  let size_data := length file_names in
  file_names ← NumPy.random_shuffle file_names;
  let val_path := validation_data_path cfg in
  validation_files ← list_files val_path;
  setattr "validation_files" (VFiles validation_files) ;;
  mret (file_names, size_data).

(** [train], lines 191-195: the loss functions. *)
Definition loss_functions : M unit :=
  EG_loss ← get_node "EG_loss";
  vgg_loss ← get_node "vgg_loss";
  G_img_loss ← get_node "G_img_loss";
  E_z_loss ← get_node "E_z_loss";
  setattr "loss_EG" (VNode
    (t_add (t_add (t_add EG_loss (t_div vgg_loss (Num 3)))
                  (t_mul (Num (1 # 100)) G_img_loss))
           (t_mul (Num (1 # 100)) E_z_loss))) ;;
  D_img_loss_input ← get_node "D_img_loss_input";
  D_img_loss_G ← get_node "D_img_loss_G";
  setattr "loss_Di" (VNode (t_add D_img_loss_input D_img_loss_G)) ;;
  D_img_loss_input ← get_node "D_img_loss_input";
  D_img_loss_G ← get_node "D_img_loss_G";
  setattr "loss_Di" (VNode (t_add D_img_loss_input D_img_loss_G)).

(** [AdamOptimizer(...).minimize(loss, var_list[, global_step])] *)
Definition minimize (optimizer loss : node) (var_list : list node)
    (global_step : option node) : M node :=
  match var_list with
  | [] => raise (ValueError "No variables to optimize.")
  | _ => mret (Minimize optimizer loss var_list global_step)
  end.

(** [train], lines 198-236: the learning rate and the three optimizers. *)
Definition optimizers (size_data : nat) (learning_rate beta1 decay_rate : Q)
  : M node :=
  global_step ← get_node "EG_global_step";
  decay_steps ← lift (q ← truediv (Z.of_nat size_data) (Z.of_nat (size_batch cfg));
                      Returns (Qred (q * 2)));
  let EG_learning_rate :=
    Op "exponential_decay"
       [Num learning_rate; global_step; Num decay_steps; Num decay_rate] in
  let adam := Op "AdamOptimizer" [EG_learning_rate; Num beta1] in
  (* optimizer for encoder + generator *)
  loss ← get_node "loss_EG";
  global_step ← get_node "EG_global_step";
  E_variables ← get_nodes "E_variables";
  G_variables ← get_nodes "G_variables";
  op ← minimize adam loss (E_variables ++ G_variables) (Some global_step);
  setattr "EG_optimizer" (VNode op) ;;
  (* optimizer for discriminator on z *)
  loss ← get_node "loss_Dz";
  D_z_variables ← get_nodes "D_z_variables";
  op ← minimize adam loss D_z_variables None;
  setattr "D_z_optimizer" (VNode op) ;;
  (* optimizer for discriminator on image *)
  loss ← get_node "loss_Di";
  D_img_variables ← get_nodes "D_img_variables";
  op ← minimize adam loss D_img_variables None;
  setattr "D_img_optimizer" (VNode op) ;;
  mret EG_learning_rate.

(** [train], lines 239-253: the merged summary and its writer. *)
Definition tensorboard_summary (EG_learning_rate : node) : M unit :=
  setattr "EG_learning_rate_summary"
    (VNode (summary_scalar "EG_learning_rate" EG_learning_rate)) ;;
  parts ← list_comp get_node
    ["z_summary"; "z_prior_summary";
     "D_z_loss_z_summary"; "D_z_loss_prior_summary";
     "D_z_logits_summary"; "D_z_prior_logits_summary";
     "EG_loss_summary"; "E_z_loss_summary";
     "D_img_loss_input_summary"; "D_img_loss_G_summary";
     "G_img_loss_summary"; "EG_learning_rate_summary";
     "D_G_logits_summary"; "D_input_logits_summary";
     "vgg_loss_summary"];
  setattr "summary" (VNode (Op "summary.merge" parts)) ;;
  getattr "session" ;;
  setattr "writer" (VObj (path_join (save_dir cfg) "summary")).

(** The label columns of a list of files, lines 271-272 and 306-307. *)
Definition label_column (label : string → result Q) (files : list string)
  : M node :=
  rows ← list_comp (λ x, q ← lift (label x); mret (Batch [Num q])) files;
  mret (Batch rows).

Definition load_images (files : list string) : node :=
  Batch ((λ f, load_image f (size_image cfg)) <$> files).

(** [train], lines 257-272: the first [size_batch] files are set aside as
    samples and removed from the training list. *)
Definition hold_out_samples (file_names : list string)
  : M (list string * (node * node * node)) :=
  let sample_files := take (size_batch cfg) file_names in
  let file_names := drop (size_batch cfg) file_names in
  let sample_images := load_images sample_files in
  sample_label_valence ← label_column valence_label sample_files;
  sample_label_arousal ← label_column arousal_label sample_files;
  mret (file_names, (sample_images, sample_label_valence, sample_label_arousal)).

(** [len(file_names) // size_batch], line 289. *)
Definition count_batches (file_names : list string) : M nat :=
  if (size_batch cfg =? 0)%nat then raise ZeroDivisionError
  else mret (length file_names `div` size_batch cfg)%nat.

(** [np.random.uniform(lo, hi, [size_batch, num_z_channels])] *)
Definition uniform_prior : M node :=
  let '(lo, hi) := image_value_range cfg in
  rows ← list_comp (λ _,
            cells ← list_comp (λ _, r ← draw;
                       mret (Op "uniform" [Num lo; Num hi;
                                           Num (inject_Z (Z.of_nat r))]))
                     (seq 0 (num_z_channels cfg));
            mret (Batch cells))
          (seq 0 (size_batch cfg));
  mret (Batch rows).

(** The fetch list of the update, lines 318-331. *)
Definition update_fetches : list string :=
  ["EG_optimizer"; "D_z_optimizer"; "D_img_optimizer";
   "EG_loss"; "E_z_loss"; "D_z_loss_z"; "D_z_loss_prior";
   "G_img_loss"; "D_img_loss_G"; "D_img_loss_input";
   "tv_loss"; "vgg_loss"].

(** The feed of one batch, lines 332-337 and 353-358. *)
Definition batch_feed (images valence arousal z_prior : node)
  : M (list (node * node)) :=
  k_image ← get_node "input_image";
  k_valence ← get_node "valence";
  k_arousal ← get_node "arousal";
  k_prior ← get_node "z_prior";
  mret [(k_image, images); (k_valence, valence); (k_arousal, arousal);
        (k_prior, z_prior)].

(** The update of one batch, lines 294-338: the batch is assembled, then
    one [session.run] is asked for the three optimizers and the losses. *)
Definition update (file_names : list string) (ind_batch : nat)
  : M (list node * (node * node * node * node)) :=
  let batch_files :=
    take (size_batch cfg) (drop (ind_batch * size_batch cfg) file_names) in
  let batch_images := load_images batch_files in
  batch_label_valence ← label_column valence_label batch_files;
  batch_label_arousal ← label_column arousal_label batch_files;
  batch_z_prior ← uniform_prior;
  getattr "session" ;;
  fetches ← list_comp get_node update_fetches;
  feed ← batch_feed batch_images batch_label_valence batch_label_arousal
                    batch_z_prior;
  values ← Session.run fetches feed;
  mret (values,
        (batch_images, batch_label_valence, batch_label_arousal, batch_z_prior)).

(** One iteration of the batch loop, lines 293-370. *)
Definition train_batch (epoch ind_batch : nat) (file_names : list string)
    (samples : node * node * node) : M unit :=
  '(errs, (images, valence, arousal, z_prior)) ← update file_names ind_batch;
  (* add to summary *)
  summary ← get_node "summary";
  feed ← batch_feed images valence arousal z_prior;
  summary ← Session.run [summary] feed;
  getattr "writer" ;;
  step ← get_node "EG_global_step";
  step ← Session.run [step] [];
  emit (Summary (path_join (save_dir cfg) "summary")
                (Batch step) (Batch summary)) ;;
  if (ind_batch `mod` 500 =? 0)%nat then
    let name := format02 (epoch + 1) +:+ "_" +:+ format02 ind_batch in
    let '(sample_images, sample_label_valence, sample_label_arousal) := samples in
    sample sample_images sample_label_valence sample_label_arousal
           (name +:+ ".png") ;;
    let test_dir := path_join (save_dir cfg) "test" in
    ensure_dir test_dir ;;
    test sample_images test_dir (name +:+ ".png")
  else mret tt.

(** One epoch, lines 290-376. *)
Definition train_epoch (num_batches : nat) (samples : node * node * node)
    (file_names : list string) (epoch : nat) : M (list string) :=
  file_names ← (if enable_shuffle cfg then NumPy.random_shuffle file_names
                else mret file_names);
  for_each (seq 0 num_batches)
    (λ ind_batch, train_batch epoch ind_batch file_names samples) ;;
  let name := format02 (epoch + 1) +:+ "_model" in
  validate name ;;
  save_checkpoint name ;;
  mret file_names.

(** [Model.train], lines 165-376. *)
Definition train (num_epochs : nat) (learning_rate beta1 decay_rate : Q)
    (use_trained_model : bool) : M unit :=
  global_step ← new_variable "global_step" (Num 0);
  setattr "EG_global_step" (VNode global_step) ;;
  '(file_names, size_data) ← load_file_names;
  loss_functions ;;
  EG_learning_rate ← optimizers size_data learning_rate beta1 decay_rate;
  tensorboard_summary EG_learning_rate ;;
  '(file_names, samples) ← hold_out_samples file_names;
  Session.initialize_variables ;;
  (if use_trained_model then load_checkpoint ;; mret tt else mret tt) ;;
  num_batches ← count_batches file_names;
  fold_each (train_epoch num_batches samples) file_names (seq 0 num_epochs) ;;
  mret tt.

End Model.
End CAAE.

(** ** The vocabulary of the specification *)
Module Spec.
Import Py TF Sys CAAE.

(** A computation leaves the world related to the one it started in,
    whether it returns or raises. *)
Definition stable {A} (R : relation world) (m : M A) : Prop :=
  ∀ w, R w (m w).2.

(** The value of attribute [name], if it is set. *)
Definition attr (name : string) (w : world) : option pyval := attrs w !! name.

(** While attribute [name] is unset the computation raises, and leaves the
    world related to the one it started in. *)
Definition aborts {A} (name : string) (R : relation world) (m : M A) : Prop :=
  ∀ w, attr name w = None → (∃ e, (m w).1 = Raises e) ∧ R w (m w).2.

(** A node that writes variables when it is run. *)
Definition training_op (n : node) : bool :=
  match n with
  | Minimize _ _ _ _ => true
  | _ => false
  end.

(** [self.z] and [self.G] are forward nodes, as [__init__] builds them. *)
Definition forward_only (w : world) : Prop :=
  ∀ name n, name ∈ ["z"; "G"] → attr name w = Some (VNode n) →
            training_op n = false.

(** Everything training rests on is as it was: the values of the variables
    (the trainable parameters and the global step), the graph's variables,
    the instance's attributes and the random generator. *)
Definition training_state_kept : relation world :=
  λ w w', forward_only w →
          session_vars w' = session_vars w ∧ graph_vars w' = graph_vars w
          ∧ attrs w' = attrs w ∧ rng w' = rng w.

(** The part [proj] of the world is left as it was. *)
Definition same {X} (proj : world → X) : relation world :=
  λ w w', proj w' = proj w.

(** The files of a directory listing that [list_files] keeps. *)
Definition kept_files (prefix : string) (listing : list string) : list string :=
  (λ x, prefix +:+ x) <$> filter (λ x, keeps x = Returns true) listing.

(** The files of [X] whose stratum field reads [r]. *)
Definition stratum (r : nat) (X : list string) : list string :=
  filter (λ x, stratum_field x = Returns (Z.of_nat r)) X.

(** The size of the largest of the 8 strata. *)
Definition largest (X : list string) : nat :=
  max_list ((λ r, length (stratum r X)) <$> seq 0 8).

(** Every file of [X] belongs to one of the 8 strata. *)
Definition partitioned (X : list string) : Prop :=
  Forall (λ x, ∃ r, (r < 8)%nat ∧ stratum_field x = Returns (Z.of_nat r)) X.

(** [l] is [X] balanced: each stratum kept whole and padded with files of
    its own up to the size of the largest, the strata concatenated and
    permuted, nothing lost. *)
Definition balanced (X l : list string) : Prop :=
  (∀ r, (r < 8)%nat → length (stratum r l) = largest X)
  ∧ (length X ≤ length l)%nat
  ∧ ∃ padded : list (list string),
      length padded = 8%nat
      ∧ l ≡ₚ concat padded
      ∧ ∀ r, (r < 8)%nat →
          ∃ added, padded !! r = Some (stratum r X ++ added)
                   ∧ Forall (λ y, y ∈ stratum r X) added.

(** [fill_up_equally] returns [X] balanced. *)
Definition fills_up (X : list string) (w : world) : Prop :=
  ∃ l, (fill_up_equally X w).1 = Returns l ∧ balanced X l.

(** The number of batch iterations per epoch [train] arrives at: the file
    lists (lines 182-189), the samples set aside (lines 257-272) and the
    count (line 289), with the graph construction in between left out. *)
Definition schedule (cfg : config) : M nat :=
  '(file_names, _) ← load_file_names cfg;
  '(file_names, _) ← hold_out_samples cfg file_names;
  count_batches cfg file_names.

(** The batch iterations a run has carried out: each one appends one
    summary record (line 360). *)
Definition batches_run (w : world) : nat :=
  length (filter (λ o, match o with Summary _ _ _ => true | _ => false end = true)
                 (outputs w)).

(** No occurrence of the character [c] in [s]. *)
Fixpoint free_of (c : ascii) (s : string) : bool :=
  match s with
  | EmptyString => true
  | String a r => negb (Ascii.eqb a c) && free_of c r
  end.

(** Modelled from the spec: the program only reads file names, what writes
    them is not among the sources. The spec: "filename encodes three
    's'-delimited integer fields: stratum index, valence*1000, arousal*1000
    (sign included), terminated before extension"; what precedes the stratum
    field is the directory and the "identity token parsed from the file
    path". *)
Definition file_name (lead : string) (r V A : Z) (ext : string) : string :=
  lead +:+ "s" +:+ str r +:+ "s" +:+ str V +:+ "s" +:+ str A +:+ "." +:+ ext.

(** The label an integer field stands for: [field / 1000]. *)
Definition label (field : Z) : Q := Qred (inject_Z field / 1000).

(** The [i]-th level of the sweep: 0.75 - 0.25 i. *)
Definition level (i : nat) : Q :=
  Qred ((3 # 4) - inject_Z (Z.of_nat i) * (1 # 4)).

(** The (valence, arousal) pairs [Model.test] feeds, row by row. *)
Definition sweep_pairs : list (Q * Q) := zip test_valence test_arousal.

(** The computation returns, with a result and in a world that satisfy [Q]. *)
Definition returns_with {A} (m : M A) (Q : A → world → Prop) (w : world)
  : Prop :=
  match m w with
  | (Returns a, w') => Q a w'
  | (Raises _, _) => False
  end.

(** The variables [tf.get_variable] creates for [names], as [get_variable]
    appends them to the graph. *)
Definition created (names : list string) : list variable :=
  (λ name, Variable_ name true (Op "initial_value" [Const name])) <$> names.

(** Modelled from the spec: the logits of the latent discriminator on [z],
    over the variables named for it; what [discriminator_z] builds. *)
Definition latent_score (net : subnetworks) (z : node) : node :=
  Op "discriminator_z" (z :: (Var <$> D_z_names net)).

(** Modelled from the spec: the logits of the image discriminator on [image]
    with its labels, over the variables named for it; what
    [discriminator_img] builds. *)
Definition image_score (net : subnetworks) (image valence arousal : node)
  : node :=
  Op "discriminator_img"
     (image :: valence :: arousal :: (Var <$> D_img_names net)).

End Spec.


(** ** Concrete runs *)
Module Example.
Import Py TF Sys CAAE.

Definition cfg : config :=
  Config 96 2 50 (-1, 1)%Q true "./data/train/" "./data/val/"
         "vgg-face.mat" "./save".

Definition net : subnetworks :=
  Subnetworks ["E_conv/w"] ["G_deconv/w"] ["D_z_fc/w"] ["D_img_conv/w"].

(** The same with the batch size the sweep of [Model.test] needs. *)
Definition cfg49 : config :=
  Config 96 49 50 (-1, 1)%Q true "./data/train/" "./data/val/"
         "vgg-face.mat" "./save".

(** One file per stratum. *)
Definition eight_files : list string :=
  ["as0s500s-250.png"; "bs1s0s0.png"; "cs2s-750s100.png"; "ds3s250s250.png";
   "es4s0s-1000.png"; "fs5s1000s0.png"; "gs6s-500s500.png"; "hs7s0s750.png"].

Definition four_files : list string := take 4 eight_files.

(** A fresh process: no attribute, no variable, the two data directories. *)
Definition fresh (training validation : list string) : world :=
  World ∅ [] ∅ (λ k, k) false
        {[ "./data/train/" := training; "./data/val/" := validation ]} [].

(** [Model(session).train(num_epochs=1)] in a fresh process. *)
Definition session (training validation : list string) : result unit * world :=
  (init cfg net ;; train cfg 1 (1 # 5000) (1 # 2) 1 false)
    (fresh training validation).

(** The same run on an instance that was given the missing attribute first:
    [m = Model(session); m.loss_Dz = m.D_z_loss_z + m.D_z_loss_prior;
    m.train(num_epochs=1)]. *)
Definition session_with_loss_Dz (training validation : list string)
  : result unit * world :=
  (init cfg net ;;
   D_z_loss_z ← get_node "D_z_loss_z";
   D_z_loss_prior ← get_node "D_z_loss_prior";
   setattr "loss_Dz" (VNode (t_add D_z_loss_z D_z_loss_prior)) ;;
   train cfg 1 (1 # 5000) (1 # 2) 1 false)
    (fresh training validation).

(** A built and initialised model with one validation file. *)
Definition validating : world :=
  ((init cfg49 net ;;
    Session.initialize_variables ;;
    setattr "validation_files" (VFiles ["./data/val/as0s500s-250.png"]))
     (fresh [] ["as0s500s-250.png"])).2.

End Example.

(** ** The logger *)
Module Logger.

(** A [Logger]: what [sys.stdout] and the log file have received, message by
    message, and whether the log file is closed. *)
Record logger : Type := Logger_ {
  terminal : list string;
  log : list string;
  closed : bool;
}.

(** [Logger.__init__], lines 497-499: the file is opened for appending, so
    what it held stays. *)
Definition init (stdout output_file : list string) : logger :=
  Logger_ stdout output_file false.

(** [Logger.write], lines 501-504. *)
Definition write (message : string) (self : logger) : logger :=
  let self := Logger_ (terminal self ++ [message]) (log self) (closed self) in
  if closed self then self
  else Logger_ (terminal self) (log self ++ [message]) (closed self).

(** [Logger.close], lines 506-507. *)
Definition close (self : logger) : logger :=
  Logger_ (terminal self) (log self) true.

(** [Logger.flush], lines 509-512: it closes the log. *)
Definition flush (self : logger) : logger := close self.

(** What a program does with its logger. *)
Inductive call : Type :=
  | Write (message : string)
  | Close
  | Flush.

Definition step (self : logger) (c : call) : logger :=
  match c with
  | Write message => write message self
  | Close => close self
  | Flush => flush self
  end.

Definition run (calls : list call) (self : logger) : logger :=
  foldl step self calls.

(** The messages of the calls, in order. *)
Definition written (calls : list call) : list string :=
  omap (λ c, match c with Write message => Some message | _ => None end) calls.

(** The calls before the first [close] or [flush]. *)
Fixpoint while_open (calls : list call) : list call :=
  match calls with
  | Write message :: rest => Write message :: while_open rest
  | _ => []
  end.

End Logger.

(** ** Further vocabulary *)
Module Frame.
Import Py TF Sys CAAE.

(** Nothing happened but random draws: the generator moved on by some number
    of draws, and everything else is as it was. *)
Definition only_draws : relation world :=
  λ w w', attrs w' = attrs w ∧ graph_vars w' = graph_vars w
          ∧ session_vars w' = session_vars w
          ∧ strict_choice w' = strict_choice w
          ∧ dirs w' = dirs w ∧ outputs w' = outputs w
          ∧ ∃ k, ∀ i, rng w' i = rng w (k + i)%nat.

(** What a run has written and the values its variables hold. *)
Definition written_and_held (w : world) : list output * gmap string node :=
  (outputs w, session_vars w).

(** No checkpoint was written. *)
Definition no_checkpoint (w : world) : Prop :=
  Forall (λ o, match o with Checkpoint _ _ => False | _ => True end)
         (outputs w).

(** The trainable variables of the graph whose name contains [marker], as
    lines 133-141 select them. *)
Definition marked (marker : string) (vars : list variable) : list node :=
  (λ v, Var (v_name v)) <$>
    filter (λ v, is_infix marker (v_name v) = true)
           (filter (λ v, v_trainable v = true) vars).

(** The names follow the convention for [marker]: each contains it and
    none of the other three markers. *)
Definition named_for (marker : string) (names : list string) : bool :=
  forallb (λ name,
    forallb (λ m, Bool.eqb (is_infix m name) (String.eqb m marker))
            ["E_"; "G_"; "D_z_"; "D_img_"]) names.

End Frame.
(** * Properties *)

(** ** The conditional sweep *)
Section Sweep.
Import Py TF Sys CAAE Spec.


End Sweep.

(** ** Strings: splitting, slicing, [str] and [int] *)
Section Strings.
Import Py Spec.

Lemma append_cons (c : ascii) (a b : string) :
  String c a +:+ b = String c (a +:+ b).
Proof. reflexivity. Qed.

Lemma append_empty (b : string) : "" +:+ b = b.
Proof. reflexivity. Qed.

Lemma app_assoc_string (a b c : string) : (a +:+ b) +:+ c = a +:+ (b +:+ c).
Proof.
  induction a as [|x a IH]; [done |]. rewrite !append_cons. by f_equal.
Qed.

Lemma length_app_string (a b : string) :
  String.length (a +:+ b) = (String.length a + String.length b)%nat.
Proof.
  induction a as [|x a IH]; [done |]. rewrite append_cons. simpl. by f_equal.
Qed.

Lemma free_of_app (c : ascii) (a b : string) :
  free_of c (a +:+ b) = free_of c a && free_of c b.
Proof.
  induction a as [|x a IH]; [done |]. rewrite append_cons. simpl.
  rewrite IH. by destruct (Ascii.eqb x c).
Qed.

Lemma split_free (c : ascii) (s : string) :
  free_of c s = true → split c s = [s].
Proof.
  induction s as [|x s IH]; simpl; [done |].
  destruct (Ascii.eqb x c); simpl; [done |].
  intros H. by rewrite (IH H).
Qed.

Lemma split_app (c : ascii) (a b : string) :
  free_of c a = true → split c (a +:+ String c b) = a :: split c b.
Proof.
  induction a as [|x a IH].
  - intros _. rewrite append_empty. simpl. by rewrite Ascii.eqb_refl.
  - rewrite append_cons. simpl. destruct (Ascii.eqb x c); simpl; [done |].
    intros H. by rewrite (IH H).
Qed.

Lemma take_chars_app (a b : string) : take_chars (String.length a) (a +:+ b) = a.
Proof.
  induction a as [|x a IH]; [by destruct b |].
  rewrite append_cons. simpl. by f_equal.
Qed.

Lemma slice_until_neg_app (k : nat) (a b : string) :
  String.length b = k → slice_until_neg k (a +:+ b) = a.
Proof.
  intros Hk. unfold slice_until_neg. rewrite length_app_string, Hk.
  replace (String.length a + k - k)%nat with (String.length a) by lia.
  apply take_chars_app.
Qed.

(** What the decimal digit characters are to [int] and to [split]. *)
Lemma digit_char_facts (d : Z) :
  0 ≤ d < 10 →
  digit_of (digit_char d) = Some d
  ∧ is_space (digit_char d) = false
  ∧ Ascii.eqb (digit_char d) "_" = false
  ∧ Ascii.eqb (digit_char d) "-" = false
  ∧ Ascii.eqb (digit_char d) "+" = false
  ∧ Ascii.eqb (digit_char d) "s" = false.
Proof.
  intros Hd.
  assert (d = 0 ∨ d = 1 ∨ d = 2 ∨ d = 3 ∨ d = 4 ∨ d = 5 ∨ d = 6 ∨ d = 7
          ∨ d = 8 ∨ d = 9) as Hcases by lia.
  repeat destruct Hcases as [-> | Hcases]; try subst d; by vm_compute.
Qed.

Lemma str_digits_head (f : nat) (n : Z) (tail : string) :
  ∃ d rest, 0 ≤ d < 10 ∧ str_digits (S f) n tail = String (digit_char d) rest.
Proof.
  revert n tail. induction f as [|f IH]; intros n tail.
  - exists (n `mod` 10), tail. split; [by apply Z.mod_pos_bound |].
    simpl. by destruct (n <? 10).
  - change (str_digits (S (S f)) n tail)
      with (if n <? 10 then String (digit_char (n `mod` 10)) tail
            else str_digits (S f) (n / 10) (String (digit_char (n `mod` 10)) tail)).
    destruct (n <? 10).
    + exists (n `mod` 10), tail. split; [by apply Z.mod_pos_bound | done].
    + apply IH.
Qed.

Lemma str_digits_free (f : nat) (n : Z) (tail : string) :
  free_of "s" tail = true → free_of "s" (str_digits f n tail) = true.
Proof.
  revert n tail. induction f as [|f IH]; intros n tail Htail; simpl; [done |].
  assert (free_of "s" (String (digit_char (n `mod` 10)) tail) = true) as Hstep.
  { change (negb (Ascii.eqb (digit_char (n `mod` 10)) "s") && free_of "s" tail = true).
    destruct (digit_char_facts (n `mod` 10)) as (_ & _ & _ & _ & _ & ->);
      [by apply Z.mod_pos_bound | done]. }
  destruct (n <? 10); [done | by apply IH].
Qed.

Lemma str_free (z : Z) : free_of "s" (str z) = true.
Proof.
  unfold str. destruct (z <? 0).
  - change (free_of "s" (str_digits (S (Z.to_nat (Z.log2 (- z)))) (- z) "") = true).
    by apply str_digits_free.
  - by apply str_digits_free.
Qed.


(** One digit read by [int_digits] when another digit follows. *)
Lemma int_digits_next (acc d d' : Z) (rest : string) :
  0 ≤ d < 10 → 0 ≤ d' < 10 →
  int_digits acc (String (digit_char d) (String (digit_char d') rest))
  = int_digits (10 * acc + d) (String (digit_char d') rest).
Proof.
  intros Hd Hd'.
  destruct (digit_char_facts d Hd) as (Hdig & _).
  destruct (digit_char_facts d' Hd') as (_ & Hsp & Hus & _).
  cbn [int_digits]. rewrite Hdig. cbn zeta. by rewrite Hus, Hsp.
Qed.

Lemma int_digits_last (acc d : Z) :
  0 ≤ d < 10 → int_digits acc (String (digit_char d) "") = Some (10 * acc + d).
Proof.
  intros Hd. destruct (digit_char_facts d Hd) as (Hdig & _).
  cbn [int_digits]. by rewrite Hdig.
Qed.

Lemma int_digits_str_digits (f : nat) (m d : Z) (tail : string) :
  0 ≤ m < 10 ^ Z.of_nat f → 0 ≤ d < 10 →
  int_digits 0 (str_digits f m (String (digit_char d) tail))
  = int_digits m (String (digit_char d) tail).
Proof.
  revert m d tail. induction f as [|f IH]; intros m d tail Hm Hd.
  - simpl in *. by replace m with 0 by lia.
  - cbn [str_digits]. cbn zeta.
    assert (0 ≤ m `mod` 10 < 10) as Hmod by by apply Z.mod_pos_bound.
    destruct (Z.ltb_spec m 10) as [Hlt | Hge].
    + rewrite int_digits_next by done.
      f_equal. rewrite Z.mod_small; lia.
    + rewrite IH; [| | done].
      * rewrite int_digits_next by done. f_equal.
        pose proof (Z.div_mod m 10). lia.
      * rewrite Nat2Z.inj_succ, Z.pow_succ_r in Hm by lia.
        split; [apply Z.div_pos; lia |].
        apply Z.div_lt_upper_bound; lia.
Qed.

Lemma int_digits_decimal (n : Z) :
  0 ≤ n →
  int_digits 0 (str_digits (S (Z.to_nat (Z.log2 n))) n "") = Some n.
Proof.
  intros Hn.
  assert (n < 10 ^ Z.of_nat (S (Z.to_nat (Z.log2 n)))) as Hfuel.
  { rewrite Nat2Z.inj_succ, Z2Nat.id by apply Z.log2_nonneg.
    destruct (decide (n = 0)) as [-> | Hpos]; [done |].
    pose proof (Z.log2_spec n ltac:(lia)) as [_ Hup].
    eapply Z.lt_le_trans; [exact Hup |].
    apply Z.pow_le_mono_l. pose proof (Z.log2_nonneg n). lia. }
  remember (Z.to_nat (Z.log2 n)) as f eqn:Hf. clear Hf.
  cbn [str_digits]. cbn zeta.
  assert (0 ≤ n `mod` 10 < 10) as Hmod by by apply Z.mod_pos_bound.
  destruct (Z.ltb_spec n 10) as [Hlt | Hge].
  - rewrite int_digits_last by done. f_equal. rewrite Z.mod_small; lia.
  - rewrite int_digits_str_digits; [| | done].
    + rewrite int_digits_last by done. f_equal.
      pose proof (Z.div_mod n 10). lia.
    + rewrite Nat2Z.inj_succ, Z.pow_succ_r in Hfuel by lia.
      split; [apply Z.div_pos; lia |].
      apply Z.div_lt_upper_bound; lia.
Qed.

Lemma int_signed_digit (d : Z) (rest : string) :
  0 ≤ d < 10 →
  int_signed (String (digit_char d) rest)
  = int_digits 0 (String (digit_char d) rest).
Proof.
  intros Hd.
  assert (d = 0 ∨ d = 1 ∨ d = 2 ∨ d = 3 ∨ d = 4 ∨ d = 5 ∨ d = 6 ∨ d = 7
          ∨ d = 8 ∨ d = 9) as Hcases by lia.
  repeat destruct Hcases as [-> | Hcases]; try subst d; reflexivity.
Qed.

(** [int(str(z)) == z] *)
Lemma int_str (z : Z) : int (str z) = Returns z.
Proof.
  unfold int, str.
  destruct (Z.ltb_spec z 0) as [Hneg | Hpos].
  - change (lstrip (String "-" ?r)) with (String "-" r).
    cbn [int_signed]. rewrite int_digits_decimal by lia.
    simpl. f_equal. lia.
  - destruct (str_digits_head (Z.to_nat (Z.log2 z)) z "") as (d & rest & Hd & Heq).
    pose proof (int_digits_decimal z Hpos) as Hint.
    rewrite Heq in *.
    destruct (digit_char_facts d Hd) as (_ & Hsp & _).
    cbn [lstrip]. rewrite Hsp, int_signed_digit by done. by rewrite Hint.
Qed.

Lemma split_file_name (lead ext : string) (r V A : Z) :
  free_of "s" lead = true → free_of "s" ext = true →
  split "s" (file_name lead r V A ext)
  = [lead; str r; str V; str A +:+ "." +:+ ext].
Proof.
  intros Hlead Hext. unfold file_name.
  rewrite !append_cons, !append_empty.
  rewrite split_app by done.
  rewrite split_app by apply str_free.
  rewrite split_app by apply str_free.
  rewrite split_free; [done |].
  rewrite free_of_app, str_free. simpl. by rewrite Hext.
Qed.

End Strings.

(** ** Labels in file names *)
Section Labels.
Import Py CAAE Spec.



End Labels.

(** ** Running computations *)
Section Running.
Import Py TF Sys Spec.

Lemma bind_run {A B} (m : M A) (f : A → M B) (w : world) :
  (m ≫= f) w = match m w with
               | (Returns a, w') => f a w'
               | (Raises e, w') => (Raises e, w')
               end.
Proof. reflexivity. Qed.

Lemma bind_returns {A B} (m : M A) (f : A → M B) (w w' : world) (a : A) :
  m w = (Returns a, w') → (m ≫= f) w = f a w'.
Proof. intros H. by rewrite bind_run, H. Qed.

Lemma bind_raises {A B} (m : M A) (f : A → M B) (w w' : world) (e : exn) :
  m w = (Raises e, w') → (m ≫= f) w = (Raises e, w').
Proof. intros H. by rewrite bind_run, H. Qed.

Lemma bind_assoc {A B C} (m : M A) (f : A → M B) (g : B → M C) (w : world) :
  ((m ≫= f) ≫= g) w = (m ≫= λ a, f a ≫= g) w.
Proof. rewrite !bind_run. by destruct (m w) as [[a | e] w']. Qed.

Lemma mret_run {A} (a : A) (w : world) : (mret a : M A) w = (Returns a, w).
Proof. reflexivity. Qed.

Lemma bind_mret {A B} (a : A) (f : A → M B) (w : world) :
  (mret a ≫= f) w = f a w.
Proof. reflexivity. Qed.

Lemma bind_draw {B} (f : nat → M B) (w : world) :
  (draw ≫= f) w
  = f (rng w 0%nat)
      (World (attrs w) (graph_vars w) (session_vars w) (λ k, rng w (S k))
             (strict_choice w) (dirs w) (outputs w)).
Proof. reflexivity. Qed.

Lemma bind_read_world {B} (f : world → M B) (w : world) :
  (read_world ≫= f) w = f w w.
Proof. reflexivity. Qed.

Lemma bind_lift {A B} (r : result A) (f : A → M B) (w : world) :
  (lift r ≫= f) w = match r with
                    | Returns a => f a w
                    | Raises e => (Raises e, w)
                    end.
Proof. by destruct r. Qed.

Lemma bind_returns_inv {A B} (m : M A) (f : A → M B) (w : world) (b : B) :
  ((m ≫= f) w).1 = Returns b →
  ∃ a w1, m w = (Returns a, w1) ∧ (f a w1).1 = Returns b.
Proof.
  rewrite bind_run. destruct (m w) as [[a | e] w1]; [eauto | done].
Qed.

(** A comprehension over checks that touch nothing. *)
Lemma list_comp_if_pure {A} (p : A → result bool) (l : list A) (w : world) :
  Forall (λ x, ∃ b, p x = Returns b) l →
  list_comp_if (λ x, lift (p x)) l w
  = (Returns (filter (λ x, p x = Returns true) l), w).
Proof.
  induction 1 as [|x l [b Hb] _ IH]; [done |].
  cbn [list_comp_if]. rewrite bind_run. unfold lift at 1. rewrite Hb.
  rewrite bind_run, IH. unfold mret, M_mret, M_ret.
  rewrite filter_cons. destruct b; case_decide; first [done | congruence].
Qed.

Lemma list_comp_if_raises {A} (p : A → result bool) (l : list A) (w : world) :
  ¬ Forall (λ x, ∃ b, p x = Returns b) l →
  ∃ e, list_comp_if (λ x, lift (p x)) l w = (Raises e, w).
Proof.
  induction l as [|x l IH]; intros Hnot; [by destruct Hnot |].
  cbn [list_comp_if]. rewrite bind_run. unfold lift at 1.
  destruct (p x) as [b | e] eqn:Hx; [| by exists e].
  destruct IH as [e He].
  { intros Hall. apply Hnot. constructor; [by exists b | done]. }
  exists e. by rewrite bind_run, He.
Qed.

Lemma list_comp_pure {A B} (f : A → result B) (g : A → B) (l : list A)
    (w : world) :
  Forall (λ x, f x = Returns (g x)) l →
  list_comp (λ x, lift (f x)) l w = (Returns (g <$> l), w).
Proof.
  induction 1 as [|x l Hx _ IH]; [done |].
  cbn [list_comp]. rewrite bind_run. unfold lift at 1. rewrite Hx.
  by rewrite bind_run, IH.
Qed.

(** Frame rules: what every step leaves alone, the whole leaves alone. *)
Section Stable.
Context (R : relation world) `{!PreOrder R}.

Lemma stable_ret {A} (a : A) : stable R (mret a : M A).
Proof. intros w. reflexivity. Qed.

Lemma stable_raise {A} (e : exn) : stable R (raise e : M A).
Proof. intros w. reflexivity. Qed.

Lemma stable_lift {A} (r : result A) : stable R (lift r).
Proof. intros w. reflexivity. Qed.

Lemma stable_read_world : stable R read_world.
Proof. intros w. reflexivity. Qed.

Lemma stable_bind {A B} (m : M A) (f : A → M B) :
  stable R m → (∀ a, stable R (f a)) → stable R (m ≫= f).
Proof.
  intros Hm Hf w. rewrite bind_run. specialize (Hm w).
  destruct (m w) as [[a | e] w']; simpl in *; [| done].
  etrans; [exact Hm | apply Hf].
Qed.

Lemma stable_for_each {A} (l : list A) (body : A → M unit) :
  (∀ x, stable R (body x)) → stable R (for_each l body).
Proof.
  intros Hbody. induction l as [|x l IH]; [apply stable_ret |].
  apply stable_bind; [apply Hbody | done].
Qed.

Lemma stable_list_comp {A B} (f : A → M B) (l : list A) :
  (∀ x, stable R (f x)) → stable R (list_comp f l).
Proof.
  intros Hf. induction l as [|x l IH]; [apply stable_ret |].
  cbn [list_comp]. apply stable_bind; [apply Hf | intros y].
  apply stable_bind; [done | intros ys; apply stable_ret].
Qed.

Lemma stable_list_comp_if {A} (p : A → M bool) (l : list A) :
  (∀ x, stable R (p x)) → stable R (list_comp_if p l).
Proof.
  intros Hp. induction l as [|x l IH]; [apply stable_ret |].
  cbn [list_comp_if]. apply stable_bind; [apply Hp | intros b].
  apply stable_bind; [done | intros ys; apply stable_ret].
Qed.

Lemma stable_fold_each {S A} (body : S → A → M S) (s : S) (l : list A) :
  (∀ s x, stable R (body s x)) → stable R (fold_each body s l).
Proof.
  intros Hbody. revert s. induction l as [|x l IH]; intros s;
    [apply stable_ret |].
  cbn [fold_each]. apply stable_bind; [apply Hbody | done].
Qed.

End Stable.
End Running.

(** ** Frames of the primitives *)
#[global] Instance same_preorder {X} (proj : Sys.world → X) :
  PreOrder (Spec.same proj).
Proof.
  split; [by intros w |].
  intros w1 w2 w3 H12 H23; unfold Spec.same in *; congruence.
Qed.

Create HintDb model.
Create HintDb stable.
#[export] Hint Unfold Sys.get_node Sys.get_nodes Sys.get_files Sys.type_error
  NumPy.random_choice NumPy.reshape_column
  CAAE.list_files CAAE.sort_samples CAAE.add_samples
  CAAE.get_variable CAAE.new_variable CAAE.encoder CAAE.generator
  CAAE.discriminator_z CAAE.discriminator_img CAAE.face_embedding
  CAAE.minimize CAAE.label_column CAAE.uniform_prior CAAE.batch_feed
  CAAE.loss_functions CAAE.load_file_names CAAE.hold_out_samples
  CAAE.count_batches CAAE.tensorboard_summary : model.

(** A leaf: a primitive, run and inspected. *)
Ltac stable_leaf :=
  let w := fresh "w" in
  intros w;
  cbv [Sys.getattr Sys.setattr Sys.draw Sys.read_world Sys.listdir
       Sys.ensure_dir Sys.emit Sys.set_session_vars Sys.set_graph_vars
       Sys.raise Sys.lift Sys.M_ret mret Sys.M_mret Spec.same Spec.attr
       Spec.training_state_kept];
  repeat case_match;
  cbn [fst snd Sys.attrs Sys.graph_vars Sys.session_vars Sys.rng
       Sys.strict_choice Sys.dirs Sys.outputs];
  first [ reflexivity | by rewrite lookup_insert_ne | by intros ? ].

Ltac stable_step :=
  lazymatch goal with
  | |- Spec.stable ?R (mret _) => apply (stable_ret R)
  | |- Spec.stable ?R (Sys.raise _) => apply (stable_raise R)
  | |- Spec.stable ?R (Sys.lift _) => apply (stable_lift R)
  | |- Spec.stable ?R (_ ≫= _) => apply (stable_bind R); [| intros ?]
  | |- Spec.stable ?R (Sys.for_each _ _) =>
      apply (stable_for_each R); intros ?
  | |- Spec.stable ?R (Sys.list_comp _ _) =>
      apply (stable_list_comp R); intros ?
  | |- Spec.stable ?R (Sys.list_comp_if _ _) =>
      apply (stable_list_comp_if R); intros ?
  | |- Spec.stable ?R (Sys.fold_each _ _ _) =>
      apply (stable_fold_each R); intros ? ?
  | |- Spec.stable _ (match ?x with _ => _ end) => destruct x
  | |- Spec.stable _ _ =>
      first [ assumption | solve [eauto with stable] | stable_leaf ]
  end.

Ltac stable_auto := autounfold with model; repeat stable_step.

Section DataFrames.
Import Py TF Sys CAAE Spec.

Lemma shuffle_aux_stable {A} (R : relation world) `{!PreOrder R}
    (fuel : nat) (l : list A) :
  stable R draw → stable R (NumPy.shuffle_aux fuel l).
Proof.
  intros Hdraw. revert l. induction fuel as [|f IH]; intros l;
    cbn [NumPy.shuffle_aux]; repeat stable_step.
Qed.

Lemma fill_up_equally_stable (R : relation world) `{!PreOrder R}
    (X : list string) :
  stable R draw → stable R (fill_up_equally X).
Proof.
  intros Hdraw. unfold fill_up_equally, sort_samples, add_samples.
  stable_auto.
  by apply shuffle_aux_stable.
Qed.

End DataFrames.

(** ** The file lists *)
Section FileLists.
Import Py TF Sys CAAE Spec.

Lemma keeps_spec (x : string) :
  keeps x = Returns true ↔ ∃ q, valence_label x = Returns q ∧ ¬ (q < -1)%Q.
Proof.
  unfold keeps.
  destruct (valence_label x) as [q | e]; simpl.
  - unfold Qltb. rewrite negb_involutive. split.
    + intros [= Hle]. exists q. split; [done |].
      apply Qle_not_lt. by apply Qle_bool_iff.
    + intros (q' & [= <-] & Hnot). f_equal.
      apply Qle_bool_iff. by apply Qnot_lt_le.
  - split; [done | by intros (q & ? & _)].
Qed.

Lemma keeps_total (x : string) :
  (∃ q, valence_label x = Returns q) → ∃ b, keeps x = Returns b.
Proof. intros [q Hq]. unfold keeps. rewrite Hq. simpl. eauto. Qed.

Lemma list_files_run (prefix : string) (listing : list string) (w : world) :
  dirs w !! prefix = Some listing →
  Forall (λ x, ∃ q, valence_label x = Returns q) listing →
  list_files prefix w = (Returns (kept_files prefix listing), w).
Proof.
  intros Hdir Hall. unfold list_files.
  rewrite bind_run. unfold listdir at 1. rewrite Hdir.
  rewrite bind_run, list_comp_if_pure; [done |].
  eapply Forall_impl; [exact Hall | apply keeps_total].
Qed.



End FileLists.

(** ** numpy's generator *)
Section Random.
Import Py TF Sys Spec.

Lemma draw_indices (n : nat) (l : list nat) (w : world) :
  ∃ picks, (list_comp (λ _ : nat, r ← draw; mret (r `mod` n)%nat) l w).1
           = Returns picks
    ∧ length picks = length l
    ∧ (n ≠ 0%nat → Forall (λ i, (i < n)%nat) picks).
Proof.
  revert w. induction l as [|x l IH]; intros w.
  - exists []. by repeat split.
  - cbn [list_comp]. rewrite bind_assoc, bind_draw, bind_mret.
    set (w1 := World _ _ _ _ _ _ _).
    rewrite bind_run.
    destruct (IH w1) as (picks & Hrun & Hlen & Hlt).
    destruct (list_comp _ l w1) as [[picks' | e] w2]; simpl in Hrun; [| done].
    injection Hrun as ->.
    exists ((rng w 0%nat `mod` n)%nat :: picks). repeat split.
    + simpl. by rewrite Hlen.
    + intros Hn. constructor; [by apply Nat.mod_upper_bound | by apply Hlt].
Qed.

(** [np.random.choice(range(n), d)] raises on an empty population, and
    otherwise yields [d] indices below [n]. *)
Lemma random_choice_run (n d : nat) (w : world) :
  match (NumPy.random_choice n d w).1 with
  | Returns picks =>
      length picks = d ∧ Forall (λ i, (i < n)%nat) picks
      ∧ (n = 0%nat → d = 0%nat)
  | Raises e =>
      e = ValueError "a must be non-empty" ∧ n = 0%nat
      ∧ (d ≠ 0%nat ∨ strict_choice w = true)
  end.
Proof.
  unfold NumPy.random_choice. rewrite bind_read_world.
  destruct (Nat.eqb_spec n 0) as [-> | Hn]; simpl.
  - destruct (strict_choice w) eqn:Hs; simpl.
    { split; [done | split; [done | by right]]. }
    destruct (Nat.eqb_spec d 0) as [-> | Hd]; simpl.
    + by repeat split.
    + split; [done | split; [done | by left]].
  - destruct (draw_indices n (seq 0 d) w) as (picks & Hrun & Hlen & Hlt).
    rewrite Hrun. rewrite length_seq in Hlen.
    split; [done | split; [by apply Hlt | done]].
Qed.

(** [np.random.shuffle] never raises and rearranges. *)
Lemma shuffle_aux_run {A} (fuel : nat) (l : list A) (w : world) :
  ∃ l', (NumPy.shuffle_aux fuel l w).1 = Returns l' ∧ l' ≡ₚ l.
Proof.
  revert l w. induction fuel as [|f IH]; intros l w.
  - by exists l.
  - cbn [NumPy.shuffle_aux]. rewrite bind_draw.
    set (w1 := World _ _ _ _ _ _ _).
    set (j := (rng w 0%nat `mod` length l)%nat).
    destruct (l !! j) as [x |] eqn:Hj; [| by exists l].
    rewrite bind_run.
    destruct (IH (delete j l) w1) as (rest & Hrun & Hperm).
    destruct (NumPy.shuffle_aux f (delete j l) w1) as [[rest' | e] w2];
      simpl in Hrun; [| done].
    injection Hrun as ->.
    exists (x :: rest). split; [done |].
    rewrite Hperm. symmetry. by apply delete_Permutation.
Qed.

Lemma random_shuffle_run {A} (l : list A) (w : world) :
  ∃ l', (NumPy.random_shuffle l w).1 = Returns l' ∧ l' ≡ₚ l.
Proof. apply shuffle_aux_run. Qed.

End Random.

(** ** Balancing the strata *)
Section Balancing.
Import Py TF Sys CAAE Spec.

Lemma list_comp_if_ext {A} (p q : A → M bool) (l : list A) (w : world) :
  (∀ x w, p x w = q x w) → list_comp_if p l w = list_comp_if q l w.
Proof.
  intros Hpq. revert w. induction l as [|x l IH]; intros w; [done |].
  cbn [list_comp_if]. rewrite !bind_run, Hpq.
  destruct (q x w) as [[b | e] w1]; [| done].
  by rewrite !bind_run, IH.
Qed.

Lemma list_comp_fixed {A B} (f : A → M B) (g : A → B) (l : list A)
    (w : world) :
  (∀ x, f x w = (Returns (g x), w)) →
  list_comp f l w = (Returns (g <$> l), w).
Proof.
  intros Hf. induction l as [|x l IH]; [done |].
  cbn [list_comp]. by rewrite bind_run, Hf, bind_run, IH.
Qed.

(** The check of line 478 on one file, as a value. *)
Lemma in_stratum_lift (r : nat) (x : string) (w : world) :
  (s ← lift (stratum_field x); mret (s =? Z.of_nat r)) w
  = lift (s ← stratum_field x; Returns (s =? Z.of_nat r)) w.
Proof. rewrite bind_lift. unfold lift. by destruct (stratum_field x). Qed.

Lemma in_stratum_comp (r : nat) (X : list string) (w : world) :
  list_comp_if (λ x, s ← lift (stratum_field x); mret (s =? Z.of_nat r)) X w
  = list_comp_if
      (λ x, lift (s ← stratum_field x; Returns (s =? Z.of_nat r))) X w.
Proof. apply list_comp_if_ext. intros x w'. apply in_stratum_lift. Qed.

Lemma stratum_filter (r : nat) (X : list string) :
  filter (λ x, (s ← stratum_field x; Returns (s =? Z.of_nat r)) = Returns true) X
  = stratum r X.
Proof.
  apply list_filter_iff. intros x.
  destruct (stratum_field x) as [s | e]; simpl; [| done].
  split.
  - intros [= Heq]. f_equal. by apply Z.eqb_eq.
  - intros [= ->]. f_equal. by apply Z.eqb_eq.
Qed.

Lemma sort_samples_run (X : list string) (w : world) :
  Forall (λ x, ∃ s, stratum_field x = Returns s) X →
  sort_samples X w = (Returns ((λ r, stratum r X) <$> seq 0 8), w).
Proof.
  intros Hall. unfold sort_samples. apply list_comp_fixed. intros r.
  rewrite in_stratum_comp.
  rewrite list_comp_if_pure; [by rewrite stratum_filter |].
  eapply Forall_impl; [exact Hall |].
  intros x [s Hs]. rewrite Hs. simpl. eauto.
Qed.

Lemma sort_samples_raises (X : list string) (w : world) :
  ¬ Forall (λ x, ∃ s, stratum_field x = Returns s) X →
  ∃ e, sort_samples X w = (Raises e, w).
Proof.
  intros Hnot. unfold sort_samples. cbn [seq list_comp].
  rewrite bind_run.
  rewrite in_stratum_comp.
  destruct (list_comp_if_raises
    (λ x, s ← stratum_field x; Returns (s =? Z.of_nat 0)) X w) as [e He].
  { intros Hall. apply Hnot. eapply Forall_impl; [exact Hall |].
    intros x [b Hb]. destruct (stratum_field x); [eauto | done]. }
  exists e. by rewrite He.
Qed.

Lemma readable_all_or_not {A B} (f : A → result B) (X : list A) :
  Forall (λ x, ∃ s, f x = Returns s) X
  ∨ ¬ Forall (λ x, ∃ s, f x = Returns s) X.
Proof.
  induction X as [|x X [IH | IH]].
  - left. constructor.
  - destruct (f x) as [s | e] eqn:Hx.
    + left. constructor; [eauto | done].
    + right. intros Hall. apply Forall_cons in Hall as [[s Hs] _]. congruence.
  - right. intros Hall. apply Forall_cons in Hall as [_ Hall]. done.
Qed.

Lemma parse_all_or_not (X : list string) :
  Forall (λ x, ∃ s, stratum_field x = Returns s) X
  ∨ ¬ Forall (λ x, ∃ s, stratum_field x = Returns s) X.
Proof. apply readable_all_or_not. Qed.

(** One pass of the loop: the stratum grows by [d] of its own files, or
    the draw from an empty stratum raises. *)
Lemma add_samples_run (sorted : list (list string)) (i d : nat)
    (s : list string) (w : world) :
  sorted !! i = Some s →
  match add_samples sorted (i, d) w with
  | (Returns sorted', w') =>
      strict_choice w' = strict_choice w
      ∧ ∃ added, sorted' = <[i := s ++ added]> sorted
                 ∧ length added = d ∧ Forall (λ y, y ∈ s) added
  | (Raises e, _) =>
      e = ValueError "a must be non-empty" ∧ s = []
      ∧ (d ≠ 0%nat ∨ strict_choice w = true)
  end.
Proof.
  intros Hs. unfold add_samples, index. rewrite Hs, bind_lift, bind_run.
  pose proof (random_choice_run (length s) d w) as Hrun.
  assert (stable (same strict_choice) (NumPy.random_choice (length s) d))
    as Hstrict by stable_auto.
  specialize (Hstrict w). unfold same in Hstrict.
  destruct (NumPy.random_choice (length s) d w) as [[picks | e] w1];
    simpl in Hrun, Hstrict.
  - destruct Hrun as (Hlen & Hlt & _).
    rewrite bind_run.
    rewrite (list_comp_pure _ (λ x, s !!! x)).
    + rewrite bind_lift, mret_run. split; [done |].
      exists ((λ x, s !!! x) <$> picks). split; [done |].
      split; [by rewrite length_fmap |].
      apply Forall_fmap. eapply Forall_impl; [exact Hlt |].
      intros x Hx. simpl. by apply list_elem_of_lookup_total_2.
    + eapply Forall_impl; [exact Hlt |].
      intros x Hx. simpl.
      by rewrite (list_lookup_lookup_total_lt s x Hx).
  - destruct Hrun as (-> & Hnil & Hd).
    split; [done |]. split; [| done].
    by apply length_zero_iff_nil.
Qed.

Lemma add_samples_loop (ds : list nat) (k : nat) (sorted : list (list string))
    (w : world) :
  length sorted = (k + length ds)%nat →
  match fold_each add_samples sorted (imap (λ i d, ((k + i)%nat, d)) ds) w with
  | (Returns sorted', _) =>
      length sorted' = length sorted
      ∧ (∀ i, (i < k)%nat → sorted' !! i = sorted !! i)
      ∧ (∀ i d, ds !! i = Some d →
           ∃ s added, sorted !! (k + i)%nat = Some s
                      ∧ sorted' !! (k + i)%nat = Some (s ++ added)
                      ∧ length added = d ∧ Forall (λ y, y ∈ s) added)
  | (Raises e, _) =>
      e = ValueError "a must be non-empty"
      ∧ ∃ i d, ds !! i = Some d ∧ sorted !! (k + i)%nat = Some []
               ∧ (d ≠ 0%nat ∨ strict_choice w = true)
  end.
Proof.
  revert k sorted w. induction ds as [|d0 ds IH]; intros k sorted w Hlen.
  - simpl. split; [done |]. split; [done |]. intros i d Hi. done.
  - rewrite imap_cons. cbn [fold_each]. rewrite bind_run.
    destruct (lookup_lt_is_Some_2 sorted (k + 0)%nat) as [s Hs];
      [simpl in Hlen; lia |].
    pose proof (add_samples_run sorted (k + 0) d0 s w Hs) as Hstep.
    destruct (add_samples sorted ((k + 0)%nat, d0) w) as [[sorted1 | e] w1].
    + destruct Hstep as (Hstrict & added & -> & Hadd & Hin).
      rewrite (imap_ext _ (λ i d, ((S k + i)%nat, d)));
        [| intros i d _; simpl; f_equal; lia].
      specialize (IH (S k) (<[(k + 0)%nat := s ++ added]> sorted) w1).
      rewrite length_insert in IH. specialize (IH ltac:(simpl in Hlen; lia)).
      destruct (fold_each _ _ _ w1) as [[sorted' | e] w2].
      * destruct IH as (Hlen' & Hlow & Hhigh).
        rewrite Nat.add_0_r in *.
        split; [done |]. split.
        { intros i Hi. rewrite Hlow by lia.
          apply list_lookup_insert_ne. lia. }
        intros [|i] d Hd.
        { injection Hd as <-. exists s, added. rewrite Nat.add_0_r.
          split; [done |]. split; [| done].
          rewrite Hlow by lia. apply list_lookup_insert_eq.
          apply lookup_lt_is_Some. eauto. }
        destruct (Hhigh i d Hd) as (s' & added' & Hs' & Hs'' & Hl & Hin').
        rewrite list_lookup_insert_ne in Hs' by lia.
        replace (k + S i)%nat with (S k + i)%nat by lia.
        by exists s', added'.
      * destruct IH as (-> & i & d & Hd & Hnil & Hor).
        split; [done |]. exists (S i), d.
        rewrite Nat.add_0_r in *.
        rewrite list_lookup_insert_ne in Hnil by lia.
        replace (k + S i)%nat with (S k + i)%nat by lia.
        split; [done |]. split; [done |]. by rewrite <- Hstrict.
    + destruct Hstep as (-> & -> & Hor).
      split; [done |]. exists 0%nat, d0. by rewrite Hs.
Qed.

Lemma strata_lookup (X : list string) (r : nat) (s : list string) :
  ((λ r, stratum r X) <$> seq 0 8) !! r = Some s
  ↔ (r < 8)%nat ∧ s = stratum r X.
Proof.
  rewrite list_lookup_fmap. split.
  - intros Hr. destruct (seq 0 8 !! r) as [r' |] eqn:Hseq; [| done].
    apply lookup_seq in Hseq as [-> Hlt]. simpl in Hr. by injection Hr as <-.
  - intros [Hlt ->]. by rewrite (lookup_seq_lt 0 8 r Hlt).
Qed.

Lemma stratum_le_largest (X : list string) (r : nat) :
  (r < 8)%nat → (length (stratum r X) ≤ largest X)%nat.
Proof.
  intros Hr. apply max_list_elem_of_le. unfold largest.
  apply list_elem_of_fmap. exists r. split; [done |].
  apply list_elem_of_lookup. exists r. by apply lookup_seq_lt.
Qed.

(** What [fill_up_equally] comes to when every stratum field reads as an
    integer: the padded strata in some order, or the error of the draw from
    an empty stratum. *)
Lemma fill_up_equally_run (X : list string) (w : world) :
  Forall (λ x, ∃ s, stratum_field x = Returns s) X →
  match (fill_up_equally X w).1 with
  | Returns l =>
      ∃ padded : list (list string),
        length padded = 8%nat
        ∧ l ≡ₚ concat padded
        ∧ ∀ r, (r < 8)%nat →
            ∃ added, padded !! r = Some (stratum r X ++ added)
                     ∧ Forall (λ y, y ∈ stratum r X) added
                     ∧ length (stratum r X ++ added) = largest X
  | Raises e =>
      e = ValueError "a must be non-empty"
      ∧ ∃ r, (r < 8)%nat ∧ stratum r X = []
             ∧ (largest X ≠ 0%nat ∨ strict_choice w = true)
  end.
Proof.
  intros Hall. unfold fill_up_equally.
  rewrite (bind_returns _ _ w w _ (sort_samples_run X w Hall)).
  cbn zeta. rewrite <- list_fmap_compose.
  change (max_list ((length ∘ (λ r, stratum r X)) <$> seq 0 8))
    with (largest X).
  set (strata := (λ r, stratum r X) <$> seq 0 8).
  set (ds := (λ a, (largest X - a)%nat)
             <$> ((length ∘ (λ r, stratum r X)) <$> seq 0 8)).
  change (imap pair ds) with (imap (λ i d, ((0 + i)%nat, d)) ds).
  assert (∀ r, (r < 8)%nat →
            ds !! r = Some (largest X - length (stratum r X))%nat) as Hds.
  { intros r Hr. unfold ds. rewrite !list_lookup_fmap.
    by rewrite (lookup_seq_lt 0 8 r Hr). }
  assert (length ds = 8%nat) as Hlen_ds by reflexivity.
  pose proof (add_samples_loop ds 0 strata w) as Hloop.
  rewrite bind_run.
  destruct (fold_each add_samples strata _ w) as [[padded | e] w1].
  - destruct Hloop as (Hlen & _ & Hpad); [by rewrite Hlen_ds |].
    destruct (random_shuffle_run (concat padded) w1) as (l & Hrun & Hperm).
    rewrite Hrun. exists padded. split; [by rewrite Hlen |]. split; [done |].
    intros r Hr.
    destruct (Hpad r _ (Hds r Hr)) as (s & added & Hs & Hp & Hadd & Hin).
    apply strata_lookup in Hs as [_ ->].
    exists added. split; [done |]. split; [done |].
    rewrite length_app, Hadd.
    pose proof (stratum_le_largest X r Hr). lia.
  - destruct Hloop as (-> & i & d & Hd & Hnil & Hor); [by rewrite Hlen_ds |].
    simpl. split; [done |].
    apply strata_lookup in Hnil as [Hi Hnil].
    change (0 + i)%nat with i in Hi, Hnil.
    exists i. split; [done |]. split; [done |].
    rewrite (Hds i Hi) in Hd. injection Hd as <-.
    rewrite <- Hnil in Hor. simpl in Hor.
    destruct Hor as [Hd | Hstrict]; [left; lia | by right].
Qed.

(** When a stratum field does not read as an integer, line 478 raises. *)
Lemma fill_up_equally_unreadable (X : list string) (w : world) :
  ¬ Forall (λ x, ∃ s, stratum_field x = Returns s) X →
  ∃ e, fill_up_equally X w = (Raises e, w).
Proof.
  intros Hnot. destruct (sort_samples_raises X w Hnot) as [e He].
  exists e. unfold fill_up_equally. by rewrite (bind_raises _ _ w w e He).
Qed.

End Balancing.

(** ** Counting files by stratum *)
Section Counting.
Import Py TF Sys CAAE Spec.

Lemma stratum_cons (r : nat) (x : string) (X : list string) :
  stratum r (x :: X)
  = if decide (stratum_field x = Returns (Z.of_nat r))
    then x :: stratum r X else stratum r X.
Proof. unfold stratum. by rewrite filter_cons. Qed.

Lemma count_cons_in (n r0 : nat) (x : string) (X : list string) :
  stratum_field x = Returns (Z.of_nat r0) →
  sum_list_with (λ r, length (stratum r (x :: X))) (seq 0 n)
  = (sum_list_with (λ r, length (stratum r X)) (seq 0 n)
     + if decide (r0 < n)%nat then 1 else 0)%nat.
Proof.
  intros Hx. induction n as [|n IH]; [done |].
  rewrite seq_S, !sum_list_with_app, IH. simpl.
  rewrite stratum_cons, Hx.
  destruct (decide (Returns (Z.of_nat r0) = Returns (Z.of_nat n)))
    as [[= Heq] | Hne].
  - apply Nat2Z.inj in Heq as ->. simpl.
    destruct (decide (n < n)%nat); [lia |].
    destruct (decide (n < S n)%nat); lia.
  - assert (r0 ≠ n) by (intros ->; done).
    destruct (decide (r0 < n)%nat); destruct (decide (r0 < S n)%nat); lia.
Qed.

Lemma count_cons_out (n : nat) (x : string) (X : list string) :
  (∀ r, (r < n)%nat → stratum_field x ≠ Returns (Z.of_nat r)) →
  sum_list_with (λ r, length (stratum r (x :: X))) (seq 0 n)
  = sum_list_with (λ r, length (stratum r X)) (seq 0 n).
Proof.
  intros Hx. induction n as [|n IH]; [done |].
  rewrite seq_S, !sum_list_with_app, IH by (intros r Hr; apply Hx; lia).
  simpl. rewrite stratum_cons, decide_False by (apply Hx; lia). done.
Qed.

Lemma count_cons_le (n : nat) (x : string) (X : list string) :
  (sum_list_with (λ r, length (stratum r (x :: X))) (seq 0 n)
   ≤ S (sum_list_with (λ r, length (stratum r X)) (seq 0 n)))%nat.
Proof.
  destruct (stratum_field x) as [z | e] eqn:Hx.
  - destruct (decide (0 ≤ z)) as [Hz | Hz].
    + rewrite (count_cons_in n (Z.to_nat z)) by (rewrite Z2Nat.id; done).
      case_decide; lia.
    + rewrite count_cons_out; [lia |].
      intros r _. rewrite Hx. intros [= ->]. lia.
  - rewrite count_cons_out; [lia |].
    intros r _. by rewrite Hx.
Qed.

(** The strata are disjoint parts of the list. *)
Lemma count_le_length (n : nat) (X : list string) :
  (sum_list_with (λ r, length (stratum r X)) (seq 0 n) ≤ length X)%nat.
Proof.
  induction X as [|x X IH].
  - unfold stratum. induction (seq 0 n) as [|r l IHl]; simpl in *; [done | lia].
  - pose proof (count_cons_le n x X). simpl. lia.
Qed.

(** A partitioned list is the sum of its strata. *)
Lemma count_partitioned (X : list string) :
  partitioned X →
  sum_list_with (λ r, length (stratum r X)) (seq 0 8) = length X.
Proof.
  induction 1 as [|x X (r0 & Hr0 & Hx) _ IH]; [done |].
  rewrite (count_cons_in 8 r0 x X Hx), IH.
  rewrite decide_True by done. simpl. lia.
Qed.

Lemma sum_list_with_le {A} (f : A → nat) (l : list A) (m : nat) :
  (∀ x, x ∈ l → f x ≤ m)%nat → (sum_list_with f l ≤ length l * m)%nat.
Proof.
  induction l as [|x l IH]; intros Hf; simpl; [done |].
  pose proof (Hf x ltac:(left)).
  pose proof (IH (λ y Hy, Hf y ltac:(by right))). lia.
Qed.

Lemma sum_list_with_ge {A} (f : A → nat) (l : list A) :
  (∀ x, x ∈ l → 1 ≤ f x)%nat → (length l ≤ sum_list_with f l)%nat.
Proof.
  induction l as [|x l IH]; intros Hf; simpl; [done |].
  pose proof (Hf x ltac:(left)).
  pose proof (IH (λ y Hy, Hf y ltac:(by right))). lia.
Qed.

Lemma length_concat_uniform {A} (ls : list (list A)) (m : nat) :
  Forall (λ p, length p = m) ls → length (concat ls) = (length ls * m)%nat.
Proof.
  induction 1 as [|p ls Hp _ IH]; [done |].
  simpl. rewrite length_app, Hp, IH. lia.
Qed.

Lemma filter_all {A} (P : A → Prop) `{∀ x, Decision (P x)} (l : list A) :
  Forall P l → filter P l = l.
Proof.
  induction 1 as [|x l Hx _ IH]; [done |].
  by rewrite filter_cons_True, IH.
Qed.

Lemma filter_none {A} (P : A → Prop) `{∀ x, Decision (P x)} (l : list A) :
  Forall (λ x, ¬ P x) l → filter P l = [].
Proof.
  induction 1 as [|x l Hx _ IH]; [done |].
  by rewrite filter_cons_False.
Qed.

(** In a concatenation of lists that each hold one stratum, the files of
    stratum [r] are the [r]-th list. *)
Lemma stratum_concat (ls : list (list string)) (k r : nat) :
  (∀ i p, ls !! i = Some p →
          Forall (λ y, stratum_field y = Returns (Z.of_nat (k + i))) p) →
  stratum r (concat ls)
  = if decide (k ≤ r)%nat then default [] (ls !! (r - k)%nat) else [].
Proof.
  revert k. induction ls as [|p ls IH]; intros k Hls.
  - simpl. by case_decide.
  - simpl. unfold stratum. rewrite filter_app. fold (stratum r (concat ls)).
    rewrite (IH (S k)).
    2:{ intros i q Hq. replace (S k + i)%nat with (k + S i)%nat by lia.
        by apply (Hls (S i)). }
    pose proof (Hls 0%nat p eq_refl) as Hp. rewrite Nat.add_0_r in Hp.
    destruct (decide (r = k)) as [-> | Hne].
    + rewrite filter_all by done.
      rewrite decide_False by lia. rewrite decide_True by lia.
      rewrite Nat.sub_diag. simpl. by rewrite app_nil_r.
    + rewrite filter_none.
      2:{ eapply Forall_impl; [exact Hp |].
          intros y Hy. simpl. rewrite Hy. intros [= Heq]. lia. }
      simpl. destruct (decide (S k ≤ r)%nat).
      * rewrite decide_True by lia.
        replace (r - k)%nat with (S (r - S k)) by lia. done.
      * by rewrite decide_False by lia.
Qed.

End Counting.

(** ** What [fill_up_equally] guarantees *)
Section FillUp.
Import Py TF Sys CAAE Spec.






End FillUp.

(** ** The batches of an epoch *)
Section Schedule.
Import Py TF Sys CAAE Spec.

Lemma fill_up_length (X l : list string) (w : world) :
  (fill_up_equally X w).1 = Returns l → length l = (8 * largest X)%nat.
Proof.
  intros Hl. destruct (parse_all_or_not X) as [Hall | Hnot].
  - pose proof (fill_up_equally_run X w Hall) as Hrun. rewrite Hl in Hrun.
    destruct Hrun as (padded & Hlen & Hperm & Hpad).
    rewrite Hperm, (length_concat_uniform padded (largest X)), Hlen; [done |].
    apply Forall_forall. intros p Hp.
    apply list_elem_of_lookup in Hp as [i Hi].
    assert (i < 8)%nat as Hlt by (rewrite <- Hlen; by eapply lookup_lt_Some).
    destruct (Hpad i Hlt) as (added & Hp' & _ & Hlp). congruence.
  - destruct (fill_up_equally_unreadable X w Hnot) as [e He].
    by rewrite He in Hl.
Qed.

(** Fewer than 8 files leave some stratum empty, so balancing cannot
    return anything but the empty list. *)
Lemma fill_up_small (X l : list string) (w : world) :
  (fill_up_equally X w).1 = Returns l → (length X < 8)%nat → largest X = 0%nat.
Proof.
  intros Hl Hsmall. destruct (parse_all_or_not X) as [Hall | Hnot].
  - pose proof (fill_up_equally_run X w Hall) as Hrun. rewrite Hl in Hrun.
    destruct Hrun as (padded & Hlen & Hperm & Hpad).
    destruct (largest X) as [|m] eqn:HM; [done |]. exfalso.
    pose proof (count_le_length 8 X) as Hle.
    assert (length (seq 0 8) ≤
            sum_list_with (λ r, length (stratum r X)) (seq 0 8))%nat as Hge.
    { apply sum_list_with_ge. intros r Hr.
      apply list_elem_of_lookup in Hr as [i Hi].
      apply lookup_seq in Hi as [-> Hlt]. change (0 + i)%nat with i.
      destruct (Hpad i Hlt) as (added & _ & Hin & Hla).
      destruct (stratum i X) as [|y ys]; [| simpl; lia].
      destruct added as [|z added]; [done |].
      apply Forall_cons in Hin as [Hz _]. by apply elem_of_nil in Hz. }
    rewrite length_seq in Hge. lia.
  - destruct (fill_up_equally_unreadable X w Hnot) as [e He].
    by rewrite He in Hl.
Qed.

Lemma list_files_inv (prefix : string) (listing kept : list string)
    (w w1 : world) :
  dirs w !! prefix = Some listing →
  list_files prefix w = (Returns kept, w1) →
  kept = kept_files prefix listing ∧ w1 = w.
Proof.
  intros Hdir Hrun.
  destruct (readable_all_or_not valence_label listing) as [Hall | Hnot].
  - rewrite (list_files_run prefix listing w Hdir Hall) in Hrun.
    by injection Hrun as <- <-.
  - exfalso. unfold list_files in Hrun.
    rewrite bind_run in Hrun. unfold listdir at 1 in Hrun.
    rewrite Hdir, bind_run in Hrun.
    destruct (list_comp_if_raises keeps listing w) as [e He].
    { intros Hb. apply Hnot. eapply Forall_impl; [exact Hb |].
      intros x [b Hx]. unfold keeps in Hx.
      destruct (valence_label x); [eauto | done]. }
    by rewrite He in Hrun.
Qed.

Lemma load_file_names_inv (cfg : config) (training : list string)
    (w w1 : world) (file_names : list string) (size_data : nat) :
  dirs w !! training_data_path cfg = Some training →
  load_file_names cfg w = (Returns (file_names, size_data), w1) →
  ∃ l, (fill_up_equally (kept_files (training_data_path cfg) training) w).1
       = Returns l
       ∧ file_names ≡ₚ l ∧ size_data = length l.
Proof.
  intros Hdir Hrun. unfold load_file_names in Hrun.
  rewrite bind_run in Hrun.
  destruct (list_files (training_data_path cfg) w) as [[kept | e] w0] eqn:Hk;
    [| done].
  apply (list_files_inv _ _ _ _ _ Hdir) in Hk as [-> ->].
  rewrite bind_run in Hrun.
  destruct (fill_up_equally _ w) as [[l | e] w2]; [| done].
  exists l. split; [done |].
  rewrite bind_run in Hrun.
  destruct (random_shuffle_run l w2) as (l' & Hshuf & Hperm).
  destruct (NumPy.random_shuffle l w2) as [[l'' | e] w3]; [| done].
  simpl in Hshuf. injection Hshuf as ->.
  rewrite bind_run in Hrun.
  destruct (list_files (validation_data_path cfg) w3) as [[vf | e] w4]; [| done].
  rewrite bind_run in Hrun. unfold setattr at 1 in Hrun.
  rewrite mret_run in Hrun. by injection Hrun as <- <- _.
Qed.

Lemma hold_out_samples_inv (cfg : config) (file_names rest : list string)
    (samples : node * node * node) (w : world) :
  (hold_out_samples cfg file_names w).1 = Returns (rest, samples) →
  rest = drop (size_batch cfg) file_names.
Proof.
  unfold hold_out_samples. intros Hrun.
  apply bind_returns_inv in Hrun as (v & w1 & _ & Hrun).
  apply bind_returns_inv in Hrun as (a & w2 & _ & Hrun).
  rewrite mret_run in Hrun. simpl in Hrun. by injection Hrun as <- _.
Qed.



End Schedule.

(** ** Attributes the program reads and never assigns *)
Section Attributes.
Import Py TF Sys CAAE Spec.

Lemma random_shuffle_stable {A} (R : relation world) `{!PreOrder R}
    (l : list A) :
  stable R draw → stable R (NumPy.random_shuffle l).
Proof. intros Hdraw. by apply shuffle_aux_stable. Qed.

Lemma draw_keeps_attr (name : string) : stable (same (attr name)) draw.
Proof. by intros w. Qed.

Section Aborts.
Context (name : string) (R : relation world) `{!PreOrder R}.

Lemma aborts_bind_l {A B} (m : M A) (f : A → M B) :
  aborts name R m → aborts name R (m ≫= f).
Proof.
  intros Hm w Hw. destruct (Hm w Hw) as [[e He] HR]. rewrite bind_run.
  destruct (m w) as [[a | e'] w1]; simpl in *; [done | eauto].
Qed.

Lemma aborts_bind_r {A B} (m : M A) (f : A → M B) :
  stable (same (attr name)) m → stable R m →
  (∀ a, aborts name R (f a)) → aborts name R (m ≫= f).
Proof.
  intros Hkeep Hm Hf w Hw. rewrite bind_run.
  specialize (Hkeep w). specialize (Hm w). unfold same in Hkeep.
  destruct (m w) as [[a | e] w1]; simpl in *.
  - destruct (Hf a w1) as [He HR]; [congruence |].
    split; [done | by etrans].
  - eauto.
Qed.

Lemma aborts_getattr : aborts name R (getattr name).
Proof.
  intros w Hw. unfold getattr. unfold attr in Hw. rewrite Hw. simpl.
  split; [eauto | reflexivity].
Qed.

Lemma aborts_get_node : aborts name R (get_node name).
Proof. apply aborts_bind_l, aborts_getattr. Qed.

Lemma aborts_get_nodes (names : list string) :
  name ∈ names → aborts name R (list_comp get_node names).
Proof.
  induction names as [|n names IH]; intros Hin; [by apply elem_of_nil in Hin |].
  cbn [list_comp].
  destruct (decide (n = name)) as [-> | Hne].
  - apply aborts_bind_l, aborts_get_node.
  - apply aborts_bind_r; [stable_auto | stable_auto |].
    intros y. apply aborts_bind_l. apply IH.
    apply elem_of_cons in Hin as [-> | Hin]; done.
Qed.

End Aborts.
End Attributes.

Ltac aborts_step known :=
  lazymatch goal with
  | |- Spec.aborts _ _ (match ?x with _ => _ end) => destruct x
  | |- Spec.aborts ?name ?R (_ ≫= _) =>
      first
        [ apply (aborts_bind_l name R);
          first [ apply (aborts_get_node name R)
                | apply (aborts_getattr name R)
                | apply (aborts_get_nodes name R); set_solver
                | known ]
        | apply (aborts_bind_r name R); [stable_auto | stable_auto | intros ?] ]
  | |- Spec.aborts ?name ?R _ =>
      first [ apply (aborts_get_node name R)
            | apply (aborts_getattr name R)
            | apply (aborts_get_nodes name R); set_solver
            | known ]
  end.

Section MissingAttributes.
Import Py TF Sys CAAE Spec.
Context (cfg : config) (net : subnetworks).

Lemma init_keeps_loss_Dz : stable (same (attr "loss_Dz")) (init cfg net).
Proof. unfold init. stable_auto. Qed.

Lemma init_keeps_tv_loss : stable (same (attr "tv_loss")) (init cfg net).
Proof. unfold init. stable_auto. Qed.

Lemma fill_up_keeps_attr (name : string) (X : list string) :
  stable (same (attr name)) (fill_up_equally X).
Proof. apply fill_up_equally_stable; [apply _ | apply draw_keeps_attr]. Qed.

Lemma shuffle_keeps_attr {A} (name : string) (l : list A) :
  stable (same (attr name)) (NumPy.random_shuffle l).
Proof. apply random_shuffle_stable; [apply _ | apply draw_keeps_attr]. Qed.

#[local] Hint Resolve fill_up_keeps_attr shuffle_keeps_attr : stable.

Lemma optimizers_abort (size_data : nat) (learning_rate beta1 decay_rate : Q) :
  aborts "loss_Dz" (same (attr "loss_Dz"))
         (optimizers cfg size_data learning_rate beta1 decay_rate).
Proof. unfold optimizers. repeat aborts_step fail. Qed.

Lemma train_aborts (num_epochs : nat) (learning_rate beta1 decay_rate : Q)
    (use_trained_model : bool) :
  aborts "loss_Dz" (same (attr "loss_Dz"))
         (train cfg num_epochs learning_rate beta1 decay_rate use_trained_model).
Proof. unfold train. repeat aborts_step ltac:(apply optimizers_abort). Qed.

(** The same for a fresh instance: [Model(session).train(...)]. *)
Lemma init_train_aborts (num_epochs : nat) (learning_rate beta1 decay_rate : Q)
    (use_trained_model : bool) :
  aborts "loss_Dz" (same (attr "loss_Dz"))
         (init cfg net ;;
          train cfg num_epochs learning_rate beta1 decay_rate use_trained_model).
Proof.
  apply (aborts_bind_r "loss_Dz" (same (attr "loss_Dz")));
    [apply init_keeps_loss_Dz | apply init_keeps_loss_Dz | intros _].
  apply train_aborts.
Qed.

Lemma update_aborts (file_names : list string) (ind_batch : nat) :
  aborts "tv_loss" (same session_vars) (update cfg file_names ind_batch).
Proof. unfold update. repeat aborts_step fail. Qed.

Lemma train_batch_aborts (epoch ind_batch : nat) (file_names : list string)
    (samples : node * node * node) :
  aborts "tv_loss" (same session_vars)
         (train_batch cfg epoch ind_batch file_names samples).
Proof.
  unfold train_batch.
  apply (aborts_bind_l "tv_loss" (same session_vars)). apply update_aborts.
Qed.

End MissingAttributes.

(** ** The two attributes [train] reads and nothing assigns *)
Section CodeDefects.
Import Py TF Sys CAAE Spec.

(** C1: [self.loss_Dz] is read when the Dz optimizer is built (line 225) and
    no statement assigns it: lines 194 and 195 both assign [self.loss_Di].
    On a directory with one file per stratum, [Model(session).train()] raises
    [AttributeError] for [loss_Dz], with [loss_Di] set and no Dz optimizer
    built; and on every instance without that attribute, whatever the
    configuration and the directories, [train] raises. *)
Theorem loss_Dz_unassigned :
  (Example.session Example.eight_files []).1 = Raises (AttributeError "loss_Dz")
  ∧ attr "loss_Dz" (Example.session Example.eight_files []).2 = None
  ∧ attr "D_z_optimizer" (Example.session Example.eight_files []).2 = None
  ∧ match attr "D_img_loss_input" (Example.session Example.eight_files []).2,
          attr "D_img_loss_G" (Example.session Example.eight_files []).2 with
    | Some (VNode input), Some (VNode G) =>
        attr "loss_Di" (Example.session Example.eight_files []).2
        = Some (VNode (t_add input G))
    | _, _ => False
    end
  ∧ (∀ cfg net num_epochs learning_rate beta1 decay_rate use_trained_model w,
       attr "loss_Dz" w = None →
       ∃ e, ((init cfg net ;;
              train cfg num_epochs learning_rate beta1 decay_rate
                    use_trained_model) w).1 = Raises e).
Proof.
  split; [vm_compute; reflexivity |]. split; [vm_compute; reflexivity |].
  split; [vm_compute; reflexivity |]. split; [vm_compute; reflexivity |].
  intros cfg net num_epochs learning_rate beta1 decay_rate use w Hw.
  by destruct (init_train_aborts cfg net num_epochs learning_rate beta1
                 decay_rate use w Hw) as [He _].
Qed.

(** C2: the fetch list of the update names [self.tv_loss] (line 329), which
    nothing assigns. Even on an instance that was given [loss_Dz], the first
    batch iteration raises [AttributeError] for [tv_loss]: no batch is
    recorded and the global step stays at its initial value. On every
    instance without that attribute the update raises before the session is
    asked anything, so no variable is written. *)
Theorem tv_loss_unassigned :
  (Example.session_with_loss_Dz Example.eight_files []).1
  = Raises (AttributeError "tv_loss")
  ∧ batches_run (Example.session_with_loss_Dz Example.eight_files []).2 = 0%nat
  ∧ session_vars (Example.session_with_loss_Dz Example.eight_files []).2
      !! "global_step" = Some (Num 0)
  ∧ "tv_loss" ∈ update_fetches
  ∧ (∀ cfg net w, attr "tv_loss" w = None →
       attr "tv_loss" (init cfg net w).2 = None)
  ∧ (∀ cfg epoch ind_batch file_names samples w,
       attr "tv_loss" w = None →
       (∃ e, (train_batch cfg epoch ind_batch file_names samples w).1
             = Raises e)
       ∧ session_vars (train_batch cfg epoch ind_batch file_names samples w).2
         = session_vars w).
Proof.
  split; [vm_compute; reflexivity |]. split; [vm_compute; reflexivity |].
  split; [vm_compute; reflexivity |].
  split; [unfold update_fetches; repeat (first [left | right]) |]. split.
  - intros cfg net w Hw. by rewrite (init_keeps_tv_loss cfg net w).
  - intros cfg epoch ind_batch file_names samples w Hw.
    apply (train_batch_aborts cfg epoch ind_batch file_names samples w Hw).
Qed.


End CodeDefects.

(** ** Validation and the sweep leave training alone *)
Section Validation.
Import Py TF Sys CAAE Spec.

#[local] Instance training_state_kept_preorder : PreOrder training_state_kept.
Proof.
  split.
  - by intros w _.
  - intros w1 w2 w3 H12 H23 Hfw.
    destruct (H12 Hfw) as (Hs & Hg & Ha & Hr).
    assert (forward_only w2) as Hfw2.
    { intros name n Hin Hn. apply (Hfw name n Hin).
      unfold attr in *. by rewrite <- Ha. }
    destruct (H23 Hfw2) as (Hs' & Hg' & Ha' & Hr').
    repeat split; congruence.
Qed.

Lemma get_node_run (name : string) (w : world) :
  get_node name w
  = (match attrs w !! name with
     | Some (VNode n) => Returns n
     | Some _ => Raises (ValueError "operand of an unexpected type")
     | None => Raises (AttributeError name)
     end, w).
Proof.
  unfold get_node. rewrite bind_run. unfold getattr.
  by destruct (attrs w !! name) as [[] |].
Qed.

Lemma updates_forward (σ φ : gmap string node) (n : node) :
  training_op n = false → Session.updates σ φ n = Some [].
Proof. by destruct n. Qed.

Lemma updates_forward_all (σ φ : gmap string node) (fetches : list node)
    (ups : list (list (string * node))) :
  Forall (λ n, training_op n = false) fetches →
  mapM (Session.updates σ φ) fetches = Some ups → concat ups = [].
Proof.
  intros Hfw Hups. apply mapM_Some in Hups.
  induction Hups as [|n u fetches ups Hn _ IH]; [done |].
  apply Forall_cons in Hfw as [Hop Hfw].
  rewrite (updates_forward σ φ n Hop) in Hn. injection Hn as <-.
  simpl. by apply IH.
Qed.

(** Running forward nodes writes no variable. *)
Lemma session_run_forward (fetches : list node) (feed : list (node * node))
    (w : world) :
  Forall (λ n, training_op n = false) fetches →
  session_vars (Session.run fetches feed w).2 = session_vars w
  ∧ graph_vars (Session.run fetches feed w).2 = graph_vars w
  ∧ attrs (Session.run fetches feed w).2 = attrs w
  ∧ rng (Session.run fetches feed w).2 = rng w.
Proof.
  intros Hfw. unfold Session.run. rewrite bind_lift.
  destruct (Session.feed_dict feed) as [φ | e]; [| done].
  rewrite bind_read_world.
  destruct (mapM (Session.instantiate (session_vars w) φ) fetches)
    as [values |]; [| done].
  destruct (mapM (Session.updates (session_vars w) φ) fetches)
    as [ups |] eqn:Hups; [| done].
  rewrite (updates_forward_all _ _ _ _ Hfw Hups). done.
Qed.

Lemma run_z_G_kept (images valence arousal : node) :
  stable training_state_kept (run_z_G images valence arousal).
Proof.
  intros w Hfw.
  remember (run_z_G images valence arousal w) as p eqn:Hp.
  unfold run_z_G in Hp.
  rewrite bind_run in Hp. unfold getattr at 1 in Hp.
  destruct (attrs w !! "session"); [| by subst p].
  rewrite bind_run, get_node_run in Hp.
  destruct (attrs w !! "z") as [[z | | |] |] eqn:Hz; try by subst p.
  rewrite bind_run, get_node_run in Hp.
  destruct (attrs w !! "G") as [[G | | |] |] eqn:HG; try by subst p.
  rewrite bind_run, get_node_run in Hp.
  destruct (attrs w !! "input_image") as [[k1 | | |] |]; try by subst p.
  rewrite bind_run, get_node_run in Hp.
  destruct (attrs w !! "valence") as [[k2 | | |] |]; try by subst p.
  rewrite bind_run, get_node_run in Hp.
  destruct (attrs w !! "arousal") as [[k3 | | |] |]; try by subst p.
  rewrite bind_run in Hp.
  assert (Forall (λ n, training_op n = false) [z; G]) as Hops.
  { repeat constructor.
    - apply (Hfw "z" z); [set_solver | done].
    - apply (Hfw "G" G); [set_solver | done]. }
  pose proof (session_run_forward [z; G]
    [(k1, images); (k2, valence); (k3, arousal)] w Hops) as Hrun.
  destruct (Session.run _ _ w) as [[values | e] w1]; [| by subst p].
  by destruct values as [|? [|? [|? ?]]]; subst p.
Qed.

#[local] Hint Resolve run_z_G_kept : stable.

Lemma test_kept (images : node) (test_dir name : string) :
  stable training_state_kept (test images test_dir name).
Proof. unfold test. stable_auto. Qed.

#[local] Hint Resolve test_kept : stable.

Lemma validate_kept (cfg : config) (name : string) :
  stable training_state_kept (validate cfg name).
Proof. unfold validate. stable_auto. Qed.

(** C9: on a model whose [z] and [G] are the forward nodes [__init__]
    builds, [validate] (and [test], which it calls on every validation file)
    changes no variable value, so no trainable parameter and not the global
    step, nor the graph, the attributes or the random generator; this holds
    whether they return or raise. *)
Theorem validation_keeps_training_state (cfg : config) (w : world)
    (name : string) :
  forward_only w →
  (session_vars (validate cfg name w).2 = session_vars w
   ∧ graph_vars (validate cfg name w).2 = graph_vars w
   ∧ attrs (validate cfg name w).2 = attrs w
   ∧ rng (validate cfg name w).2 = rng w)
  ∧ (∀ images test_dir file,
       session_vars (test images test_dir file w).2 = session_vars w
       ∧ graph_vars (test images test_dir file w).2 = graph_vars w
       ∧ attrs (test images test_dir file w).2 = attrs w
       ∧ rng (test images test_dir file w).2 = rng w).
Proof.
  intros Hfw. split.
  - by apply (validate_kept cfg name w).
  - intros images test_dir file. by apply (test_kept images test_dir file w).
Qed.

Lemma validation_keeps_training_state_witness :
  session_vars (validate Example.cfg49 "01_model" Example.validating).2
  = session_vars Example.validating.
Proof.
  assert (forward_only Example.validating) as Hfw.
  { intros name n Hin.
    apply elem_of_cons in Hin as [-> | Hin].
    { intros Hn. vm_compute in Hn. injection Hn as <-. reflexivity. }
    apply elem_of_cons in Hin as [Hin | Hin].
    { subst name. intros Hn. vm_compute in Hn. injection Hn as <-.
      reflexivity. }
    apply elem_of_nil in Hin. destruct Hin. }
  pose proof (validation_keeps_training_state Example.cfg49
                Example.validating "01_model" Hfw) as [[Hs _] _].
  exact Hs.
Defined.

(** The validation run of the witness does its work: it returns and writes
    the sweep of the one validation file. *)
Example validation_runs :
  (validate Example.cfg49 "01_model" Example.validating).1 = Returns tt
  ∧ length (outputs (validate Example.cfg49 "01_model" Example.validating).2)
    = 1%nat.
Proof.
  split; [vm_compute; reflexivity |]. vm_compute; reflexivity.
Qed.

End Validation.

(** ** Sharing of the discriminators' variables *)
Section Sharing.
Import Py TF Sys CAAE Spec.
Context (cfg : config) (net : subnetworks).

Lemma returns_with_bind {A B} (m : M A) (f : A → M B) Q w :
  returns_with m (λ a, returns_with (f a) Q) w → returns_with (m ≫= f) Q w.
Proof.
  unfold returns_with. rewrite bind_run. by destruct (m w) as [[a | e] w'].
Qed.

Lemma returns_with_ret {A} (a : A) (Q : A → world → Prop) w :
  Q a w → returns_with (mret a) Q w.
Proof. done. Qed.

Lemma returns_with_setattr name v (Q : unit → world → Prop) w :
  Q tt (World (<[name := v]> (attrs w)) (graph_vars w) (session_vars w)
              (rng w) (strict_choice w) (dirs w) (outputs w)) →
  returns_with (setattr name v) Q w.
Proof. done. Qed.

Lemma returns_with_getattr name v (Q : pyval → world → Prop) w :
  attrs w !! name = Some v → Q v w → returns_with (getattr name) Q w.
Proof. intros Hv HQ. unfold returns_with, getattr. by rewrite Hv. Qed.

Lemma returns_with_get_node name n (Q : node → world → Prop) w :
  attrs w !! name = Some (VNode n) → Q n w → returns_with (get_node name) Q w.
Proof.
  intros Hv HQ. unfold returns_with, get_node. rewrite bind_run.
  unfold getattr. by rewrite Hv.
Qed.

Lemma returns_with_read_world (Q : world → world → Prop) w :
  Q w w → returns_with read_world Q w.
Proof. done. Qed.

Lemma returns_with_run {A} (m : M A) Q w a w' :
  m w = (Returns a, w') → Q a w' → returns_with m Q w.
Proof. intros Hm HQ. unfold returns_with. by rewrite Hm. Qed.

(** The first call of a subnetwork creates its variables. *)
Lemma get_variable_creates (names : list string) (w : world) :
  NoDup names →
  (∀ name, name ∈ names → name ∉ v_name <$> graph_vars w) →
  list_comp (get_variable false) names w
  = (Returns (Var <$> names),
     World (attrs w) (graph_vars w ++ created names) (session_vars w) (rng w)
           (strict_choice w) (dirs w) (outputs w)).
Proof.
  revert w. induction names as [|name names IH]; intros w Hnd Hfresh.
  { cbn. rewrite app_nil_r. by destruct w. }
  apply NoDup_cons in Hnd as [Hname Hnd].
  cbn [list_comp]. rewrite bind_run. unfold get_variable at 1.
  rewrite bind_read_world.
  rewrite bool_decide_eq_false_2 by (apply Hfresh; left).
  rewrite bind_run. unfold set_graph_vars at 1.
  rewrite mret_run, bind_run, IH; [| done |].
  - cbn. by rewrite <- app_assoc.
  - intros x Hx. cbn. rewrite fmap_app. cbn. intros Hin.
    apply elem_of_app in Hin as [Hin | Hin].
    + by apply (Hfresh x); [right |].
    + apply list_elem_of_singleton in Hin. by subst x.
Qed.

(** A call with [reuse_variables=True] finds them and creates none. *)
Lemma get_variable_reuses (names : list string) (w : world) :
  (∀ name, name ∈ names → name ∈ v_name <$> graph_vars w) →
  list_comp (get_variable true) names w = (Returns (Var <$> names), w).
Proof.
  induction names as [|name names IH]; intros Hin; [done |].
  cbn [list_comp]. rewrite bind_run. unfold get_variable at 1.
  rewrite bind_read_world.
  rewrite bool_decide_eq_true_2 by (apply Hin; left).
  rewrite mret_run, bind_run, IH; [done |].
  intros x Hx. apply Hin. by right.
Qed.


Lemma created_names (names : list string) : v_name <$> created names = names.
Proof. induction names as [|x l IH]; [done | cbn; by f_equal]. Qed.

Ltac lookup_attr :=
  cbv beta iota delta [attrs attr];
  repeat first [ apply lookup_insert_eq
               | rewrite lookup_insert_ne by discriminate ].

Ltac init_step :=
  lazymatch goal with
  | |- returns_with (setattr _ _ ≫= _) _ _ =>
      apply returns_with_bind, returns_with_setattr
  | |- returns_with (setattr _ _) _ _ => apply returns_with_setattr
  | |- returns_with (get_node _ ≫= _) _ _ =>
      apply returns_with_bind; eapply returns_with_get_node; [lookup_attr |]
  | |- returns_with (getattr _ ≫= _) _ _ =>
      apply returns_with_bind; eapply returns_with_getattr; [lookup_attr |]
  | |- returns_with (read_world ≫= _) _ _ =>
      apply returns_with_bind, returns_with_read_world
  end;
  cbv beta iota zeta delta [attrs graph_vars session_vars rng strict_choice
                            dirs outputs face_embedding].


Lemma returns_with_creating {A} (names : list string) (f : list node → M A) Q w :
  NoDup names →
  (∀ name, name ∈ names → name ∉ v_name <$> graph_vars w) →
  returns_with (f (Var <$> names)) Q
    (World (attrs w) (graph_vars w ++ created names) (session_vars w) (rng w)
           (strict_choice w) (dirs w) (outputs w)) →
  returns_with (list_comp (get_variable false) names ≫= f) Q w.
Proof.
  intros Hnd Hfresh HQ. apply returns_with_bind.
  eapply returns_with_run; [by apply get_variable_creates | done].
Qed.

Lemma returns_with_reusing {A} (names : list string) (f : list node → M A) Q w :
  (∀ name, name ∈ names → name ∈ v_name <$> graph_vars w) →
  returns_with (f (Var <$> names)) Q w →
  returns_with (list_comp (get_variable true) names ≫= f) Q w.
Proof.
  intros Hin HQ. apply returns_with_bind.
  eapply returns_with_run; [by apply get_variable_reuses | done].
Qed.


Ltac init_reduce :=
  cbv beta iota zeta delta [attrs graph_vars session_vars rng strict_choice
                            dirs outputs face_embedding].

Ltac init_names :=
  cbv beta iota delta [graph_vars];
  rewrite ?fmap_app, ?created_names;
  intros name Hname; rewrite ?elem_of_app.

Ltac init_call :=
  apply returns_with_bind;
  unfold encoder, generator, discriminator_z, discriminator_img;
  first [ apply returns_with_creating; [| init_names |]
        | apply returns_with_reusing; [init_names |] ].

Lemma init_runs (w : world) :
  NoDup (E_names net ++ G_names net ++ D_z_names net ++ D_img_names net) →
  (∀ name, name ∈ E_names net ++ G_names net ++ D_z_names net ++ D_img_names net →
           name ∉ v_name <$> graph_vars w) →
  returns_with (init cfg net) (λ _ w',
    let input := Placeholder "input_images" (size_batch cfg) in
    let valence := Placeholder "valence_labels" (size_batch cfg) in
    let arousal := Placeholder "arousal_labels" (size_batch cfg) in
    let z_prior := Placeholder "z_prior" (size_batch cfg) in
    let z := Op "encoder" (input :: (Var <$> E_names net)) in
    let G := Op "generator" (z :: valence :: arousal :: (Var <$> G_names net)) in
    (attr "z" w' = Some (VNode z) ∧ attr "G" w' = Some (VNode G)
     ∧ attr "D_z_logits" w' = Some (VNode (latent_score net z))
     ∧ attr "D_z_prior_logits" w' = Some (VNode (latent_score net z_prior))
     ∧ attr "D_G_logits" w' = Some (VNode (image_score net G valence arousal))
     ∧ attr "D_input_logits" w'
       = Some (VNode (image_score net input valence arousal)))
    ∧ (attr "D_z" w' = Some (VNode (Op "sigmoid" [latent_score net z]))
       ∧ attr "D_z_prior" w'
         = Some (VNode (Op "sigmoid" [latent_score net z_prior]))
       ∧ attr "D_G" w'
         = Some (VNode (Op "sigmoid" [image_score net G valence arousal]))
       ∧ attr "D_input" w'
         = Some (VNode (Op "sigmoid" [image_score net input valence arousal])))
    ∧ graph_vars w'
      = graph_vars w ++ created (E_names net ++ G_names net
                                 ++ D_z_names net ++ D_img_names net)) w.
Proof.
  intros Hnd Hfresh. destruct w as [a g s r c d o]. cbn [graph_vars] in Hfresh.
  apply NoDup_app in Hnd as (HE & HE' & Hnd).
  apply NoDup_app in Hnd as (HG & HG' & Hnd).
  apply NoDup_app in Hnd as (HDz & HDz' & HDimg).
  unfold init.
  repeat init_step.
  (* the encoder *)
  init_call; [done | |].
  { intros Hin. apply (Hfresh name); [| done]. rewrite !elem_of_app. tauto. }
  init_reduce. apply returns_with_ret. repeat init_step.
  (* the generator *)
  init_call; [done | |].
  { intros [Hin | Hin].
    - apply (Hfresh name); [| done]. rewrite !elem_of_app. tauto.
    - apply (HE' name Hin). rewrite !elem_of_app. tauto. }
  init_reduce. apply returns_with_ret. repeat init_step.
  (* the discriminator on z, creating its variables *)
  init_call; [done | |].
  { intros [[Hin | Hin] | Hin].
    - apply (Hfresh name); [| done]. rewrite !elem_of_app. tauto.
    - apply (HE' name Hin). rewrite !elem_of_app. tauto.
    - apply (HG' name Hin). rewrite !elem_of_app. tauto. }
  init_reduce. apply returns_with_ret. init_reduce. repeat init_step.
  (* the discriminator on images, creating its variables *)
  init_call; [done | |].
  { intros [[[Hin | Hin] | Hin] | Hin].
    - apply (Hfresh name); [| done]. rewrite !elem_of_app. tauto.
    - apply (HE' name Hin). rewrite !elem_of_app. tauto.
    - apply (HG' name Hin). rewrite !elem_of_app. tauto.
    - by apply (HDz' name Hin). }
  init_reduce. apply returns_with_ret. init_reduce. repeat init_step.
  (* the discriminator on z again, reusing *)
  init_call; [tauto |].
  init_reduce. apply returns_with_ret. init_reduce. repeat init_step.
  (* the discriminator on images again, reusing *)
  init_call; [tauto |].
  init_reduce. apply returns_with_ret. init_reduce.
  repeat init_step.
  split; [| split].
  - repeat split; lookup_attr.
  - repeat split; lookup_attr.
  - cbn [graph_vars]. unfold created. rewrite !fmap_app, <- !app_assoc. done.
Qed.


(** Equal inputs get equal latent scores, whatever the variables hold. *)
Lemma latent_score_instantiate (σ φ : gmap string node) (x y : node) :
  Session.instantiate σ φ x = Session.instantiate σ φ y →
  Session.instantiate σ φ (latent_score net x)
  = Session.instantiate σ φ (latent_score net y).
Proof. intros Hxy. unfold latent_score. cbn. by rewrite Hxy. Qed.

Lemma image_score_instantiate (σ φ : gmap string node)
    (x y valence arousal : node) :
  Session.instantiate σ φ x = Session.instantiate σ φ y →
  Session.instantiate σ φ (image_score net x valence arousal)
  = Session.instantiate σ φ (image_score net y valence arousal).
Proof. intros Hxy. unfold image_score. cbn. by rewrite Hxy. Qed.

(** C8: in a graph that holds none of the four subnetworks' variables,
    [__init__] returns, and the two calls of the latent discriminator (on the
    encoded [z] and on [z_prior]) and the two of the image discriminator (on
    [G] and on the input) are built over the same variables: the second call
    of each creates none, the graph holds one variable for each name. So
    under any variable values and feeds, inputs of equal value get equal
    scores on either path. *)
Theorem discriminators_share_parameters (w : world) :
  NoDup (E_names net ++ G_names net ++ D_z_names net ++ D_img_names net) →
  (∀ name,
     name ∈ E_names net ++ G_names net ++ D_z_names net ++ D_img_names net →
     name ∉ v_name <$> graph_vars w) →
  let input := Placeholder "input_images" (size_batch cfg) in
  let valence := Placeholder "valence_labels" (size_batch cfg) in
  let arousal := Placeholder "arousal_labels" (size_batch cfg) in
  let z_prior := Placeholder "z_prior" (size_batch cfg) in
  let z := Op "encoder" (input :: (Var <$> E_names net)) in
  let G := Op "generator" (z :: valence :: arousal :: (Var <$> G_names net)) in
  ∃ w', init cfg net w = (Returns tt, w')
    ∧ (attr "z" w' = Some (VNode z) ∧ attr "G" w' = Some (VNode G)
       ∧ attr "D_z_logits" w' = Some (VNode (latent_score net z))
       ∧ attr "D_z_prior_logits" w' = Some (VNode (latent_score net z_prior))
       ∧ attr "D_G_logits" w'
         = Some (VNode (image_score net G valence arousal))
       ∧ attr "D_input_logits" w'
         = Some (VNode (image_score net input valence arousal)))
    ∧ (attr "D_z" w' = Some (VNode (Op "sigmoid" [latent_score net z]))
       ∧ attr "D_z_prior" w'
         = Some (VNode (Op "sigmoid" [latent_score net z_prior]))
       ∧ attr "D_G" w'
         = Some (VNode (Op "sigmoid" [image_score net G valence arousal]))
       ∧ attr "D_input" w'
         = Some (VNode (Op "sigmoid"
                           [image_score net input valence arousal])))
    ∧ graph_vars w'
      = graph_vars w ++ created (E_names net ++ G_names net
                                 ++ D_z_names net ++ D_img_names net)
    ∧ (∀ σ φ x y,
         Session.instantiate σ φ x = Session.instantiate σ φ y →
         Session.instantiate σ φ (latent_score net x)
         = Session.instantiate σ φ (latent_score net y))
    ∧ (∀ σ φ x y valence arousal,
         Session.instantiate σ φ x = Session.instantiate σ φ y →
         Session.instantiate σ φ (image_score net x valence arousal)
         = Session.instantiate σ φ (image_score net y valence arousal)).
Proof.
  intros Hnd Hfresh input valence arousal z_prior z G.
  pose proof (init_runs w Hnd Hfresh) as Hrun. unfold returns_with in Hrun.
  destruct (init cfg net w) as [[[] | e] w']; [| destruct Hrun].
  destruct Hrun as (Hlogits & Hscores & Hvars).
  exists w'. split; [reflexivity |]. split; [exact Hlogits |].
  split; [exact Hscores |]. split; [exact Hvars |]. split.
  - apply latent_score_instantiate.
  - apply image_score_instantiate.
Qed.

End Sharing.

Section SharingExample.
Import Py TF Sys CAAE Spec.

Lemma discriminators_share_parameters_witness :
  attr "D_z_prior_logits" (init Example.cfg Example.net (Example.fresh [] [])).2
  = Some (VNode (latent_score Example.net
                   (Placeholder "z_prior" (size_batch Example.cfg))))
  ∧ graph_vars (init Example.cfg Example.net (Example.fresh [] [])).2
    = created ["E_conv/w"; "G_deconv/w"; "D_z_fc/w"; "D_img_conv/w"].
Proof.
  assert (NoDup (E_names Example.net ++ G_names Example.net
                 ++ D_z_names Example.net ++ D_img_names Example.net)) as Hnd.
  { apply (bool_decide_unpack _). vm_compute. exact I. }
  assert (∀ name,
    name ∈ E_names Example.net ++ G_names Example.net
           ++ D_z_names Example.net ++ D_img_names Example.net →
    name ∉ v_name <$> graph_vars (Example.fresh [] [])) as Hfresh.
  { intros name _ Hin. apply elem_of_nil in Hin. destruct Hin. }
  destruct (discriminators_share_parameters Example.cfg Example.net
              (Example.fresh [] []) Hnd Hfresh)
    as (w' & Hrun & (_ & _ & _ & Hprior & _) & _ & Hvars & _).
  rewrite Hrun. split; [exact Hprior | exact Hvars].
Defined.

End SharingExample.

(** ** The logger *)
Section LoggerProperties.

Lemma logger_run_closed (calls : list Logger.call) (self : Logger.logger) :
  Logger.closed self = true →
  Logger.terminal (Logger.run calls self)
  = Logger.terminal self ++ Logger.written calls
  ∧ Logger.log (Logger.run calls self) = Logger.log self
  ∧ Logger.closed (Logger.run calls self) = true.
Proof.
  revert self. induction calls as [|c calls IH]; intros self Hclosed.
  { cbn. by rewrite app_nil_r. }
  destruct c as [message | |]; cbn [Logger.run foldl Logger.step].
  - destruct (IH (Logger.write message self)) as (Ht & Hl & Hc).
    { unfold Logger.write. cbn. by rewrite Hclosed. }
    unfold Logger.run in *. rewrite Ht, Hl, Hc.
    unfold Logger.write. cbn. rewrite Hclosed. cbn.
    by rewrite <- app_assoc.
  - destruct (IH (Logger.close self)) as (Ht & Hl & Hc); [done |].
    unfold Logger.run in *. by rewrite Ht, Hl, Hc.
  - destruct (IH (Logger.flush self)) as (Ht & Hl & Hc); [done |].
    unfold Logger.run in *. by rewrite Ht, Hl, Hc.
Qed.

(** X1: the terminal gets every message; the log file gets the messages written
    before the first [close] or [flush], after which it stays closed:
    [flush] ends the logging to the file. *)
Theorem logger_logs_until_flush (stdout output_file : list string)
    (calls : list Logger.call) :
  let self := Logger.run calls (Logger.init stdout output_file) in
  Logger.terminal self = stdout ++ Logger.written calls
  ∧ Logger.log self
    = output_file ++ Logger.written (Logger.while_open calls)
  ∧ (Logger.closed self = false ↔ Logger.while_open calls = calls).
Proof.
  cbn zeta. unfold Logger.init.
  generalize stdout as t, output_file as l.
  induction calls as [|c calls IH]; intros t l.
  { cbn. by rewrite !app_nil_r. }
  destruct c as [message | |].
  - cbn [Logger.run foldl Logger.step Logger.while_open].
    unfold Logger.write at 1 2 3. cbn.
    destruct (IH (t ++ [message]) (l ++ [message])) as (Ht & Hl & Hc).
    unfold Logger.run in *. rewrite Ht, Hl, <- !app_assoc. cbn.
    split; [done |]. split; [done |].
    rewrite Hc. split; [by intros -> | by intros [= ?]].
  - destruct (logger_run_closed calls (Logger.Logger_ t l true) eq_refl)
      as (Ht & Hl & Hc).
    unfold Logger.run in *.
    cbn [foldl Logger.step Logger.while_open].
    change (Logger.close (Logger.Logger_ t l false))
      with (Logger.Logger_ t l true).
    rewrite Ht, Hl, Hc. cbn. rewrite app_nil_r.
    split; [done |]. split; [done |]. split; intros [=].
  - destruct (logger_run_closed calls (Logger.Logger_ t l true) eq_refl)
      as (Ht & Hl & Hc).
    unfold Logger.run in *.
    cbn [foldl Logger.step Logger.while_open].
    change (Logger.flush (Logger.Logger_ t l false))
      with (Logger.Logger_ t l true).
    rewrite Ht, Hl, Hc. cbn. rewrite app_nil_r.
    split; [done |]. split; [done |]. split; intros [=].
Qed.

End LoggerProperties.

(** ** What balancing touches *)
Section Draws.
Import Py TF Sys CAAE Spec Frame.

#[local] Instance only_draws_preorder : PreOrder only_draws.
Proof.
  split.
  - intros w. unfold only_draws. repeat split; try reflexivity.
    exists 0%nat. by intros i.
  - intros w1 w2 w3 (Ha & Hg & Hs & Hc & Hd & Ho & k & Hk)
                    (Ha' & Hg' & Hs' & Hc' & Hd' & Ho' & k' & Hk').
    unfold only_draws. repeat split; try congruence.
    exists (k + k')%nat. intros i. rewrite Hk', Hk. f_equal. lia.
Qed.

Lemma draw_only_draws : stable only_draws draw.
Proof.
  intros w. unfold only_draws, draw. cbn. repeat split; try reflexivity.
  exists 1%nat. by intros i.
Qed.


End Draws.

(** ** Reading the file names *)
Section FileNames.
Import Py TF Sys CAAE Spec.

Lemma split_prefix (prefix x : string) :
  free_of "s" prefix = true →
  ∃ head tail, split "s" x = head :: tail
               ∧ split "s" (prefix +:+ x) = (prefix +:+ head) :: tail.
Proof.
  intros Hfree. induction prefix as [|c p IH].
  - rewrite append_empty.
    destruct x as [|c x]; [by exists "", [] |].
    simpl. destruct (Ascii.eqb c "s"); [by eexists _, _ |].
    destruct (split "s" x) as [|h t]; by eexists _, _.
  - simpl in Hfree. apply andb_prop in Hfree as [Hc Hp].
    destruct (IH Hp) as (head & tail & Hx & Hpx).
    exists head, tail. split; [done |].
    rewrite append_cons. simpl.
    destruct (Ascii.eqb c "s"); [done |]. by rewrite Hpx.
Qed.

(** X3: a directory prefix without the letter [s] does not disturb the fields:
    the stratum (read by [fill_up_equally] from the path, line 478) and the
    labels (lines 271-272, 306-307) are those of the bare file name, which
    is what the filter of lines 183 and 189 reads. *)
Theorem prefix_keeps_fields (prefix x : string) :
  free_of "s" prefix = true →
  stratum_field (prefix +:+ x) = stratum_field x
  ∧ valence_label (prefix +:+ x) = valence_label x
  ∧ arousal_label (prefix +:+ x) = arousal_label x.
Proof.
  intros Hfree. destruct (split_prefix prefix x Hfree) as (h & t & Hx & Hpx).
  unfold stratum_field, valence_label, arousal_label. by rewrite Hx, Hpx.
Qed.

Lemma prefix_keeps_fields_witness :
  valence_label ("./data/train/" +:+ "as0s500s-250.png")
  = valence_label "as0s500s-250.png".
Proof.
  by destruct (prefix_keeps_fields "./data/train/" "as0s500s-250.png" eq_refl)
    as (_ & H & _).
Defined.

(** X4: a directory prefix with one [s] shifts the fields by one: what the
    filter took for the stratum field is then read as the valence, and the
    valence as the arousal. *)
Theorem prefix_shifts_fields (before after x : string) :
  free_of "s" before = true →
  free_of "s" after = true →
  valence_label (before +:+ String "s" after +:+ x)
  = (s ← stratum_field x; truediv s 1000)
  ∧ index (split "s" (before +:+ String "s" after +:+ x)) 3
    = index (split "s" x) 2.
Proof.
  intros Hb Ha.
  destruct (split_prefix after x Ha) as (h & t & Hx & Hax).
  assert (split "s" (before +:+ String "s" after +:+ x)
          = before :: (after +:+ h) :: t) as Hsplit.
  { rewrite append_cons. rewrite split_app by done. by rewrite Hax. }
  unfold valence_label, stratum_field. rewrite Hsplit, Hx. split; [| done].
  cbn [index lookup list_lookup]. 
  destruct t as [|f t]; [done |]. cbn.
  by destruct (int f).
Qed.

Lemma prefix_shifts_fields_witness :
  valence_label ("./data" +:+ String "s" "et/" +:+ "as0s500s-250.png")
  = Returns 0%Q.
Proof.
  destruct (prefix_shifts_fields "./data" "et/" "as0s500s-250.png"
              eq_refl eq_refl) as [H _].
  rewrite H. vm_compute. reflexivity.
Defined.



End FileNames.

(** ** Sampling *)
Section Sampling.
Import Py TF Sys CAAE Spec.

#[local] Existing Instance training_state_kept_preorder.
#[local] Hint Resolve run_z_G_kept : stable.

Lemma sample_kept (cfg : config) (images valence arousal : node)
    (name : string) :
  stable training_state_kept (sample cfg images valence arousal name).
Proof. unfold sample. stable_auto. Qed.

Lemma session_run_same {X} (proj : world → X) (fetches : list node)
    (feed : list (node * node)) :
  (∀ w σ, proj (set_session_vars σ w).2 = proj w) →
  stable (same proj) (Session.run fetches feed).
Proof.
  intros Hproj. unfold Session.run, Session.engine_error.
  repeat stable_step. intros w. apply Hproj.
Qed.

Lemma run_z_G_same {X} (proj : world → X) (images valence arousal : node) :
  (∀ w σ, proj (set_session_vars σ w).2 = proj w) →
  stable (same proj) (run_z_G images valence arousal).
Proof.
  intros Hproj. unfold run_z_G.
  pose proof (session_run_same proj) as Hrun.
  stable_auto; try apply Hrun; done.
Qed.


Lemma validating_forward_only : forward_only Example.validating.
Proof.
  intros name n Hin.
  apply elem_of_cons in Hin as [-> | Hin].
  { intros Hn. vm_compute in Hn. injection Hn as <-. reflexivity. }
  apply elem_of_cons in Hin as [Hin | Hin].
  { subst name. intros Hn. vm_compute in Hn. injection Hn as <-.
    reflexivity. }
  apply elem_of_nil in Hin. destruct Hin.
Qed.


End Sampling.

(** ** Checkpoints *)
Section Checkpoints.
Import Py TF Sys CAAE Spec Frame.

Lemma prefix_append (a b : string) : String.prefix a (a +:+ b) = true.
Proof.
  induction a as [|c a IH]; [by destruct b |].
  rewrite append_cons. simpl. by destruct (ascii_dec c c).
Qed.

Lemma path_join_prefix (a b : string) :
  (∀ rest, b ≠ String "/" rest) → String.prefix a (path_join a b) = true.
Proof.
  intros Hrel. unfold path_join.
  assert (String.prefix a
            (if String.eqb a "" then b
             else if String.eqb
                       (String.substring (String.length a - 1) 1 a) "/"
                  then a +:+ b else a +:+ "/" +:+ b) = true) as Hjoin.
  { destruct (String.eqb_spec a "") as [-> |]; [by destruct b |].
    destruct (String.eqb _ "/"); apply prefix_append. }
  destruct b as [|c b]; [done |].
  destruct (ascii_dec c "/") as [-> | Hc]; [by destruct (Hrel b) |].
  destruct c as [[] [] [] [] [] [] [] []]; first [done | by destruct Hc].
Qed.

Lemma latest_checkpoint_none (checkpoint_dir : string) (outs : list output) :
  Forall (λ o, match o with Checkpoint _ _ => False | _ => True end) outs →
  latest_checkpoint checkpoint_dir outs = None.
Proof.
  intros Hall. unfold latest_checkpoint.
  induction Hall as [|o outs Ho _ IH]; [done |].
  cbn [omap list_omap]. by destruct o.
Qed.

(** X7: while no checkpoint has been written, [load_checkpoint] answers [False]
    and restores nothing: it does not even need a saver. *)
Theorem load_checkpoint_without_checkpoint (cfg : config) (w : world) :
  no_checkpoint w → load_checkpoint cfg w = (Returns false, w).
Proof.
  intros Hnone. unfold load_checkpoint. rewrite bind_read_world.
  by rewrite latest_checkpoint_none.
Qed.

Lemma load_checkpoint_without_checkpoint_witness :
  load_checkpoint Example.cfg Example.validating
  = (Returns false, Example.validating).
Proof.
  apply load_checkpoint_without_checkpoint.
  unfold no_checkpoint.
  assert (outputs Example.validating = []) as -> by (vm_compute; reflexivity).
  constructor.
Defined.



End Checkpoints.

(** ** Validation paths *)
Section ValidationPaths.
Import Py TF Sys CAAE Spec.



End ValidationPaths.

(** ** What [__init__] leaves for the other methods *)

(** Running [__init__] step by step. *)
Ltac find_attr :=
  cbv beta iota delta [Sys.attrs Spec.attr];
  repeat first [ apply lookup_insert_eq
               | rewrite lookup_insert_ne by discriminate ].

Ltac run_reduce :=
  cbv beta iota zeta delta [Sys.attrs Sys.graph_vars Sys.session_vars Sys.rng
                            Sys.strict_choice Sys.dirs Sys.outputs
                            CAAE.face_embedding].

Ltac run_step :=
  lazymatch goal with
  | |- Spec.returns_with (Sys.setattr _ _ ≫= _) _ _ =>
      apply returns_with_bind, returns_with_setattr
  | |- Spec.returns_with (Sys.setattr _ _) _ _ => apply returns_with_setattr
  | |- Spec.returns_with (Sys.get_node _ ≫= _) _ _ =>
      apply returns_with_bind; eapply returns_with_get_node; [find_attr |]
  | |- Spec.returns_with (Sys.getattr _ ≫= _) _ _ =>
      apply returns_with_bind; eapply returns_with_getattr; [find_attr |]
  | |- Spec.returns_with (Sys.read_world ≫= _) _ _ =>
      apply returns_with_bind, returns_with_read_world
  end;
  run_reduce.

Ltac run_names :=
  cbv beta iota delta [Sys.graph_vars];
  rewrite ?fmap_app, ?created_names;
  intros name Hname; rewrite ?elem_of_app.

Ltac run_call :=
  apply returns_with_bind;
  unfold CAAE.encoder, CAAE.generator, CAAE.discriminator_z,
         CAAE.discriminator_img;
  first [ apply returns_with_creating; [| run_names |]
        | apply returns_with_reusing; [run_names |] ].

Section Built.
Import Py TF Sys CAAE Spec Frame.
Context (cfg : config) (net : subnetworks).

Lemma init_attributes (w : world) :
  NoDup (E_names net ++ G_names net ++ D_z_names net ++ D_img_names net) →
  (∀ name,
     name ∈ E_names net ++ G_names net ++ D_z_names net ++ D_img_names net →
     name ∉ v_name <$> graph_vars w) →
  returns_with (init cfg net) (λ _ w',
    let vars := graph_vars w ++ created (E_names net) ++ created (G_names net)
                ++ created (D_z_names net) ++ created (D_img_names net) in
    (is_Some (attr "session" w')
     ∧ (∃ z, attr "z" w' = Some (VNode z))
     ∧ (∃ G, attr "G" w' = Some (VNode G))
     ∧ attr "input_image" w'
       = Some (VNode (Placeholder "input_images" (size_batch cfg)))
     ∧ attr "valence" w'
       = Some (VNode (Placeholder "valence_labels" (size_batch cfg)))
     ∧ attr "arousal" w'
       = Some (VNode (Placeholder "arousal_labels" (size_batch cfg))))
    ∧ (attr "E_variables" w' = Some (VNodes (marked "E_" vars))
       ∧ attr "G_variables" w' = Some (VNodes (marked "G_" vars))
       ∧ attr "D_z_variables" w' = Some (VNodes (marked "D_z_" vars))
       ∧ attr "D_img_variables" w' = Some (VNodes (marked "D_img_" vars)))
    ∧ graph_vars w' = vars) w.
Proof.
  intros Hnd Hfresh. destruct w as [a g s r c d o]. cbn [graph_vars] in Hfresh.
  apply NoDup_app in Hnd as (HE & HE' & Hnd).
  apply NoDup_app in Hnd as (HG & HG' & Hnd).
  apply NoDup_app in Hnd as (HDz & HDz' & HDimg).
  unfold init.
  repeat run_step.
  run_call; [done | |].
  { intros Hin. apply (Hfresh name); [| done]. rewrite !elem_of_app. tauto. }
  run_reduce. apply returns_with_ret. repeat run_step.
  run_call; [done | |].
  { intros [Hin | Hin].
    - apply (Hfresh name); [| done]. rewrite !elem_of_app. tauto.
    - apply (HE' name Hin). rewrite !elem_of_app. tauto. }
  run_reduce. apply returns_with_ret. repeat run_step.
  run_call; [done | |].
  { intros [[Hin | Hin] | Hin].
    - apply (Hfresh name); [| done]. rewrite !elem_of_app. tauto.
    - apply (HE' name Hin). rewrite !elem_of_app. tauto.
    - apply (HG' name Hin). rewrite !elem_of_app. tauto. }
  run_reduce. apply returns_with_ret. run_reduce. repeat run_step.
  run_call; [done | |].
  { intros [[[Hin | Hin] | Hin] | Hin].
    - apply (Hfresh name); [| done]. rewrite !elem_of_app. tauto.
    - apply (HE' name Hin). rewrite !elem_of_app. tauto.
    - apply (HG' name Hin). rewrite !elem_of_app. tauto.
    - by apply (HDz' name Hin). }
  run_reduce. apply returns_with_ret. run_reduce. repeat run_step.
  run_call; [tauto |].
  run_reduce. apply returns_with_ret. run_reduce. repeat run_step.
  run_call; [tauto |].
  run_reduce. apply returns_with_ret. run_reduce.
  repeat run_step.
  rewrite <- !app_assoc.
  split; [| split].
  - split; [eexists; find_attr |].
    split; [eexists; find_attr |]. split; [eexists; find_attr |].
    repeat split; find_attr.
  - unfold marked. repeat split; find_attr.
  - reflexivity.
Qed.

(** X10: [test] feeds 49 rows to placeholders that [__init__] declared with
    [size_batch] rows: on a model built with another batch size it raises
    before the session computes anything, and so do [validate] on its first
    file and the sampling step of [train]. *)
Theorem test_needs_batch_of_49 (w : world) (row : node) (rows : list node)
    (test_dir name : string) :
  NoDup (E_names net ++ G_names net ++ D_z_names net ++ D_img_names net) →
  (∀ name,
     name ∈ E_names net ++ G_names net ++ D_z_names net ++ D_img_names net →
     name ∉ v_name <$> graph_vars w) →
  size_batch cfg ≠ 49%nat →
  ∃ w', init cfg net w = (Returns tt, w')
        ∧ test (Batch (row :: rows)) test_dir name w'
          = (Raises (ValueError "Cannot feed value of this shape"), w').
Proof.
  intros Hnd Hfresh Hsize.
  pose proof (init_attributes w Hnd Hfresh) as Hrun.
  unfold returns_with in Hrun.
  destruct (init cfg net w) as [[[] | e] w']; [| destruct Hrun].
  destruct Hrun as (([session Hsession] & [z Hz] & [G HG] & Himage & Hvalence
                     & Harousal) & _ & _).
  exists w'. split; [reflexivity |].
  unfold test. rewrite bind_mret.
  change (NumPy.reshape_column 49 test_valence)
    with (mret ((λ q, Batch [Num q]) <$> test_valence) : M (list node)).
  rewrite bind_mret.
  change (NumPy.reshape_column 49 test_arousal)
    with (mret ((λ q, Batch [Num q]) <$> test_arousal) : M (list node)).
  rewrite bind_mret, bind_mret.
  rewrite bind_run. unfold run_z_G.
  rewrite bind_run. unfold getattr at 1. unfold attr in *. rewrite Hsession.
  rewrite bind_run, get_node_run, Hz.
  rewrite bind_run, get_node_run, HG.
  rewrite bind_run, get_node_run, Himage.
  rewrite bind_run, get_node_run, Hvalence.
  rewrite bind_run, get_node_run, Harousal.
  rewrite bind_run. unfold Session.run. rewrite bind_lift.
  cbn [Session.feed_dict].
  replace (length (concat (replicate 49 (take 1 (row :: rows)))))
    with 49%nat by reflexivity.
  destruct (Nat.eqb_spec 49 (size_batch cfg)) as [Heq | _]; [| done].
  by destruct Hsize.
Qed.

Lemma marked_created (marker : string) (names : list string) (b : bool) :
  (∀ name, name ∈ names → is_infix marker name = b) →
  filter (λ v, is_infix marker (v_name v) = true) (created names)
  = if b then created names else [].
Proof.
  intros Hall. destruct b.
  - apply filter_all. apply Forall_fmap, Forall_forall. intros x Hx.
    by apply Hall.
  - apply filter_none. apply Forall_fmap, Forall_forall. intros x Hx. cbn.
    by rewrite (Hall x Hx).
Qed.

Lemma named_for_infix (marker m : string) (names : list string) (name : string) :
  named_for marker names = true →
  m ∈ ["E_"; "G_"; "D_z_"; "D_img_"] → name ∈ names →
  is_infix m name = String.eqb m marker.
Proof.
  intros Hnamed Hm Hname. unfold named_for in Hnamed.
  rewrite forallb_forall in Hnamed.
  apply list_elem_of_In in Hname, Hm.
  specialize (Hnamed name Hname). rewrite forallb_forall in Hnamed.
  by apply Bool.eqb_prop, Hnamed.
Qed.

(** X11: when the subnetworks name their variables by the convention, the four
    groups of lines 133-141 are the four subnetworks' variables: each
    optimizer of [train] is given the variables of its own subnetworks and
    no other. *)
Theorem variable_groups (w : world) :
  NoDup (E_names net ++ G_names net ++ D_z_names net ++ D_img_names net) →
  (∀ name,
     name ∈ E_names net ++ G_names net ++ D_z_names net ++ D_img_names net →
     name ∉ v_name <$> graph_vars w) →
  Forall (λ v, v_trainable v = false) (graph_vars w) →
  named_for "E_" (E_names net) = true →
  named_for "G_" (G_names net) = true →
  named_for "D_z_" (D_z_names net) = true →
  named_for "D_img_" (D_img_names net) = true →
  ∃ w', init cfg net w = (Returns tt, w')
        ∧ attr "E_variables" w' = Some (VNodes (Var <$> E_names net))
        ∧ attr "G_variables" w' = Some (VNodes (Var <$> G_names net))
        ∧ attr "D_z_variables" w' = Some (VNodes (Var <$> D_z_names net))
        ∧ attr "D_img_variables" w' = Some (VNodes (Var <$> D_img_names net)).
Proof.
  intros Hnd Hfresh Hfixed HE HG HDz HDimg.
  pose proof (init_attributes w Hnd Hfresh) as Hrun.
  unfold returns_with in Hrun.
  destruct (init cfg net w) as [[[] | e] w']; [| destruct Hrun].
  destruct Hrun as (_ & (HvE & HvG & HvDz & HvDimg) & _).
  exists w'. split; [reflexivity |].
  assert (∀ marker,
    marker ∈ ["E_"; "G_"; "D_z_"; "D_img_"] →
    marked marker (graph_vars w ++ created (E_names net)
                   ++ created (G_names net) ++ created (D_z_names net)
                   ++ created (D_img_names net))
    = Var <$> ((if String.eqb marker "E_" then E_names net else [])
               ++ (if String.eqb marker "G_" then G_names net else [])
               ++ (if String.eqb marker "D_z_" then D_z_names net else [])
               ++ (if String.eqb marker "D_img_" then D_img_names net
                   else []))) as Hmarked.
  { intros marker Hmarker. unfold marked.
    rewrite !filter_app.
    rewrite (filter_none _ (graph_vars w)).
    2:{ eapply Forall_impl; [exact Hfixed |]. intros v Hv. cbn.
        by rewrite Hv. }
    rewrite !(filter_all (λ v, v_trainable v = true) (created _))
      by (apply Forall_fmap, Forall_forall; by intros).
    rewrite ?filter_app, filter_nil. cbn [app].
    rewrite (marked_created marker (E_names net) (String.eqb marker "E_"))
      by (intros; by eapply named_for_infix).
    rewrite (marked_created marker (G_names net) (String.eqb marker "G_"))
      by (intros; by eapply named_for_infix).
    rewrite (marked_created marker (D_z_names net) (String.eqb marker "D_z_"))
      by (intros; by eapply named_for_infix).
    rewrite (marked_created marker (D_img_names net)
               (String.eqb marker "D_img_"))
      by (intros; by eapply named_for_infix).
    rewrite !fmap_app. cbn [app].
    assert (∀ (b : bool) names,
      (λ v, Var (v_name v)) <$> (if b then created names else [])
      = Var <$> (if b then names else [])) as Hnames.
    { intros [] names; [| done]. unfold created.
      rewrite <- list_fmap_compose. done. }
    by rewrite !Hnames. }
  rewrite HvE, HvG, HvDz, HvDimg.
  rewrite !Hmarked by (repeat (first [left | right])).
  cbn. by rewrite !app_nil_r.
Qed.

End Built.

Section BuiltExamples.
Import Py TF Sys CAAE Spec Frame.

Lemma test_needs_batch_of_49_witness :
  ∃ w', init Example.cfg Example.net (Example.fresh [] []) = (Returns tt, w')
        ∧ test (Batch [Const "face"]) "./save/test" "01_00.png" w'
          = (Raises (ValueError "Cannot feed value of this shape"), w').
Proof.
  apply (test_needs_batch_of_49 Example.cfg Example.net (Example.fresh [] [])).
  - apply (bool_decide_unpack _). vm_compute. exact I.
  - intros name _ Hin. apply elem_of_nil in Hin. destruct Hin.
  - intros H. discriminate H.
Defined.

Lemma variable_groups_witness :
  ∃ w', init Example.cfg Example.net (Example.fresh [] []) = (Returns tt, w')
        ∧ attr "E_variables" w' = Some (VNodes [Var "E_conv/w"])
        ∧ attr "G_variables" w' = Some (VNodes [Var "G_deconv/w"])
        ∧ attr "D_z_variables" w' = Some (VNodes [Var "D_z_fc/w"])
        ∧ attr "D_img_variables" w' = Some (VNodes [Var "D_img_conv/w"]).
Proof.
  apply (variable_groups Example.cfg Example.net (Example.fresh [] [])).
  - apply (bool_decide_unpack _). vm_compute. exact I.
  - intros name _ Hin. apply elem_of_nil in Hin. destruct Hin.
  - constructor.
  - reflexivity.
  - reflexivity.
  - reflexivity.
  - reflexivity.
Defined.

End BuiltExamples.

(** ** What a run of [train] leaves behind *)
Section Traces.
Import Py TF Sys CAAE Spec Frame.
Context (cfg : config) (net : subnetworks).

Lemma fill_up_keeps_written (X : list string) :
  stable (same written_and_held) (fill_up_equally X).
Proof. apply fill_up_equally_stable; [apply _ | stable_leaf]. Qed.

Lemma shuffle_keeps_written {A} (l : list A) :
  stable (same written_and_held) (NumPy.random_shuffle l).
Proof. apply random_shuffle_stable; [apply _ | stable_leaf]. Qed.

#[local] Hint Resolve fill_up_keeps_written shuffle_keeps_written
  fill_up_keeps_attr shuffle_keeps_attr : stable.

Lemma init_keeps_written : stable (same written_and_held) (init cfg net).
Proof. unfold init. stable_auto. Qed.

Lemma optimizers_abort_unwritten (size_data : nat)
    (learning_rate beta1 decay_rate : Q) :
  aborts "loss_Dz" (same written_and_held)
         (optimizers cfg size_data learning_rate beta1 decay_rate).
Proof. unfold optimizers. repeat aborts_step fail. Qed.

Lemma train_aborts_unwritten (num_epochs : nat)
    (learning_rate beta1 decay_rate : Q) (use_trained_model : bool) :
  aborts "loss_Dz" (same written_and_held)
         (train cfg num_epochs learning_rate beta1 decay_rate use_trained_model).
Proof.
  unfold train. repeat aborts_step ltac:(apply optimizers_abort_unwritten).
Qed.

(** X12: [Model(session).train(...)] stops before it has initialised a variable
    or written anything: no summary, no sample, no validation image and no
    checkpoint, whatever the configuration, the data and the number of
    epochs. *)
Theorem train_leaves_no_trace (num_epochs : nat)
    (learning_rate beta1 decay_rate : Q) (use_trained_model : bool)
    (w : world) :
  attr "loss_Dz" w = None →
  let run := (init cfg net ;;
              train cfg num_epochs learning_rate beta1 decay_rate
                    use_trained_model) w in
  (∃ e, run.1 = Raises e)
  ∧ outputs run.2 = outputs w
  ∧ session_vars run.2 = session_vars w.
Proof.
  intros Hw run.
  assert (aborts "loss_Dz" (same written_and_held)
            (init cfg net ;;
             train cfg num_epochs learning_rate beta1 decay_rate
                   use_trained_model)) as Haborts.
  { apply (aborts_bind_r "loss_Dz" (same written_and_held));
      [apply init_keeps_loss_Dz | apply init_keeps_written | intros _].
    apply train_aborts_unwritten. }
  destruct (Haborts w Hw) as [He Hsame]. fold run in He, Hsame.
  split; [exact He |]. unfold same, written_and_held in Hsame.
  by injection Hsame.
Qed.

End Traces.

Section TracesExample.
Import Py TF Sys CAAE Spec.

Lemma train_leaves_no_trace_witness :
  outputs (Example.session Example.eight_files []).2 = [].
Proof.
  destruct (train_leaves_no_trace Example.cfg Example.net 1 (1 # 5000)
              (1 # 2) 1 false (Example.fresh Example.eight_files [])
              eq_refl) as (_ & Hout & _).
  exact Hout.
Defined.

End TracesExample.
